(** * Session store, route guard and conversation manager

    A shallow embedding of the client-side state logic of the chat
    front end: the [AuthProvider] context (token restoration, profile
    fetch, login, signup, logout), the [ProtectedWrapper] route guard and
    the [ChatPage] transcript logic (history loading, sending, history
    windows).

    React state cells, [localStorage], the router and the console are
    fields of one explicit [World]; every asynchronous handler is a
    computation in a small state-and-exception monad [Js].  What the
    remote service answers is an argument of the handler that awaits it,
    so every theorem quantifies over the service's behaviour. *)

From Stdlib Require Import ZArith String Ascii List Bool Lia.
From stdpp Require Import base option list strings gmap pretty.

Local Open Scope string_scope.
Local Open Scope Z_scope.

(** ** JavaScript values the handlers look at *)

(** Truthiness of a string ([""] is falsy) and of a nullable string. *)
Definition truthy_string (s : string) : bool := negb (String.eqb s "").

Definition truthy (v : option string) : bool :=
  match v with
  | Some s => truthy_string s
  | None => false
  end.

(** [v || d] for a string-valued field that may be missing. *)
Definition js_or (v : option string) (d : string) : string :=
  match v with
  | Some s => if truthy_string s then s else d
  | None => d
  end.

(** String coercion of a field that may be [undefined], as done by
    [localStorage.setItem] and by template literals. *)
Definition js_String (v : option string) : string :=
  match v with
  | Some s => s
  | None => "undefined"
  end.

(** *** White space

    A string holds its text in UTF-8, as the string literals of this
    file do, so a character is a run of one to four bytes.  What
    [String.prototype.trim] removes is the white space and the line
    terminators of ECMAScript, all of them of one to three bytes:

    - U+0009 to U+000D and U+0020: the byte itself;
    - U+00A0 (no-break space): C2 A0;
    - U+1680: E1 9A 80;
    - U+2000 to U+200A, U+2028, U+2029 and U+202F:
      E2 80 followed by 80 to 8A, A8, A9 or AF;
    - U+205F: E2 81 9F;
    - U+3000: E3 80 80;
    - U+FEFF: EF BB BF. *)
Definition space1 (a : ascii) : bool :=
  let n := N_of_ascii a in
  ((9 <=? n) && (n <=? 13))%N || (n =? 32)%N.

Definition space2 (a b : ascii) : bool :=
  ((N_of_ascii a =? 194) && (N_of_ascii b =? 160))%N.

Definition space3 (a b c : ascii) : bool :=
  let x := N_of_ascii a in
  let y := N_of_ascii b in
  let z := N_of_ascii c in
  ((x =? 225) && (y =? 154) && (z =? 128)
   || (x =? 226) && (y =? 128)
      && ((128 <=? z) && (z <=? 138) || (z =? 168) || (z =? 169) || (z =? 175))
   || (x =? 226) && (y =? 129) && (z =? 159)
   || (x =? 227) && (y =? 128) && (z =? 128)
   || (x =? 239) && (y =? 187) && (z =? 191))%N.

(** Removes the white-space characters at the head of [s], each
    recognised by [p1], [p2] or [p3] according to its length. *)
Fixpoint strip (p1 : ascii → bool) (p2 : ascii → ascii → bool)
    (p3 : ascii → ascii → ascii → bool) (s : string) : string :=
  match s with
  | EmptyString => EmptyString
  | String a r1 =>
      if p1 a then strip p1 p2 p3 r1
      else
        match r1 with
        | EmptyString => s
        | String b r2 =>
            if p2 a b then strip p1 p2 p3 r2
            else
              match r2 with
              | EmptyString => s
              | String c r3 => if p3 a b c then strip p1 p2 p3 r3 else s
              end
        end
  end.

Definition trimStart (s : string) : string := strip space1 space2 space3 s.

(** At the end of the text the bytes of a character are met last byte
    first: no character of UTF-8 ends with the bytes of another one, so
    what is stripped there are whole white-space characters. *)
Definition trimEnd (s : string) : string :=
  String.rev
    (strip space1 (λ b a, space2 a b) (λ c b a, space3 a b c) (String.rev s)).

Definition trim (s : string) : string := trimEnd (trimStart s).

(** [Array.prototype.slice(start, end)] with its treatment of negative
    and oversized indices. *)
Definition slice {A : Type} (l : list A) (start end_ : Z) : list A :=
  let len := Z.of_nat (length l) in
  let k := if start <? 0 then Z.max (len + start) 0 else Z.min start len in
  let final := if end_ <? 0 then Z.max (len + end_) 0 else Z.min end_ len in
  take (Z.to_nat (final - k)) (drop (Z.to_nat k) l).

(** ** Data model *)

Record User := mkUser {
  u_id : Z;
  u_email : string;
  u_username : string;
  u_created_at : string;
  u_last_login : option string
}.

Inductive Role := user_role | assistant_role.

(** A [Date] is built either from the clock ([new Date()]) or from the
    service's timestamp string ([new Date(msg.timestamp)]). *)
Inductive Date :=
| DateNow (ms : Z)
| DateOf (iso : string).

(** [content] is [None] when the field holds [undefined], which happens
    when it is copied from a response body that has no [answer]. *)
Record Message := mkMessage {
  m_id : option Z;
  m_role : Role;
  m_content : option string;
  m_sources : option (list string);
  m_timestamp : Date
}.

(** A history entry as the service sends it. *)
Record WireMessage := mkWire {
  w_id : option Z;
  w_role : Role;
  w_content : string;
  w_sources : option (list string);
  w_timestamp : string
}.

(** Body of the answers of [/auth/login] and [/auth/signup]: the token
    pair on success, [detail] on failure; any field may be missing. *)
Record AuthBody := mkAuthBody {
  detail : option string;
  access_token : option string;
  refresh_token : option string
}.

(** Body of the answer of [/chat]. *)
Record ChatBody := mkChatBody {
  answer : option string;
  sources : option (list string)
}.

(** ** The remote service as seen through [fetch] *)

(** What awaiting [fetch] yields: the promise rejects (transport
    failure), or a response arrives, with a status and a body that
    [res.json()] can read ([Some]) or not ([None]). *)
Inductive Fetched (A : Type) :=
| Rejects
| Responds (status : Z) (json_body : option A).
Arguments Rejects {A}.
Arguments Responds {A} status json_body.

Record Response (A : Type) := mkResponse {
  status : Z;
  body : option A
}.
Arguments mkResponse {A} status body.
Arguments status {A} r.
Arguments body {A} r.

(** [res.ok]: the status is in the range 200-299. *)
Definition ok {A : Type} (res : Response A) : bool :=
  (200 <=? status res) && (status res <=? 299).

(** One entry of the log of requests issued. *)
Record Call := mkCall {
  c_method : string;
  c_url : string;
  c_bearer : option string;
  c_answer : option Z
}.

Inductive Exn :=
| Error (message : string)
| FetchFailed
| JsonFailed.

(** ** The world *)

Record AuthState := mkAuth {
  user : option User;
  token : option string;
  loading : bool
}.

Record ChatState := mkChat {
  messages : list Message;
  input : string;
  chat_loading : bool;
  showHistory : bool;
  chatHistory : list Message
}.

Record World := mkWorld {
  auth : AuthState;
  chat : ChatState;
  localStorage : gmap string string;
  pushed : list string;
  console : list string;
  network : list Call
}.

(** State of [AuthProvider] when it mounts. *)
Definition initial_auth : AuthState :=
  {| user := None; token := None; loading := true |}.

Definition greeting_text : string :=
  "I am The People's Agent. I have access to the federal policy database.".

(** The synthetic first message of the transcript. *)
Definition greeting (now : Z) : Message :=
  {| m_id := None; m_role := assistant_role; m_content := Some greeting_text;
     m_sources := Some []; m_timestamp := DateNow now |}.

(** State of [ChatPage] when it mounts. *)
Definition initial_chat (now : Z) : ChatState :=
  {| messages := [greeting now]; input := ""; chat_loading := false;
     showHistory := false; chatHistory := [] |}.

Definition initial_world (now : Z) (stored : gmap string string) : World :=
  {| auth := initial_auth; chat := initial_chat now; localStorage := stored;
     pushed := []; console := []; network := [] |}.

(** ** The monad of handlers *)

Inductive Outcome (A : Type) :=
| Done (a : A)
| Thrown (e : Exn).
Arguments Done {A} a.
Arguments Thrown {A} e.

Definition Js (A : Type) : Type := World → Outcome A * World.

Definition Js_ret {A : Type} (a : A) : Js A := λ w, (Done a, w).

Definition Js_bind {A B : Type} (m : Js A) (k : A → Js B) : Js B :=
  λ w, match m w with
       | (Done a, w') => k a w'
       | (Thrown e, w') => (Thrown e, w')
       end.

Definition throw {A : Type} (e : Exn) : Js A := λ w, (Thrown e, w).

(** [try { m } catch (e) { h e }] *)
Definition try_catch {A : Type} (m : Js A) (h : Exn → Js A) : Js A :=
  λ w, match m w with
       | (Done a, w') => (Done a, w')
       | (Thrown e, w') => h e w'
       end.

(** [try { m } finally { f }]: [f] runs on every exit of [m]; an
    exception of [m] is thrown again after it. *)
Definition finally {A : Type} (m : Js A) (f : Js unit) : Js A :=
  λ w, match m w with
       | (r, w') =>
           match f w' with
           | (Done _, w'') => (r, w'')
           | (Thrown e, w'') => (Thrown e, w'')
           end
       end.

Declare Scope js_scope.
Delimit Scope js_scope with js.
Notation "x <- m ;; k" := (Js_bind m (λ x, k))
  (at level 100, m at next level, right associativity) : js_scope.
Notation "m ;;; k" := (Js_bind m (λ _, k))
  (at level 100, right associativity) : js_scope.
Local Open Scope js_scope.

(** The world a handler leaves behind, and how it completed. *)
Definition after {A : Type} (m : Js A) (w : World) : World := snd (m w).
Definition completion {A : Type} (m : Js A) (w : World) : Outcome A := fst (m w).

(** *** State cells and browser objects *)

Definition with_auth (f : AuthState → AuthState) : Js unit :=
  λ w, (Done tt,
        {| auth := f (auth w); chat := chat w; localStorage := localStorage w;
           pushed := pushed w; console := console w; network := network w |}).

Definition with_chat (f : ChatState → ChatState) : Js unit :=
  λ w, (Done tt,
        {| auth := auth w; chat := f (chat w); localStorage := localStorage w;
           pushed := pushed w; console := console w; network := network w |}).

Definition with_storage (f : gmap string string → gmap string string) : Js unit :=
  λ w, (Done tt,
        {| auth := auth w; chat := chat w; localStorage := f (localStorage w);
           pushed := pushed w; console := console w; network := network w |}).

Definition setUser (u : option User) : Js unit :=
  with_auth (λ a, {| user := u; token := token a; loading := loading a |}).

Definition setToken (t : option string) : Js unit :=
  with_auth (λ a, {| user := user a; token := t; loading := loading a |}).

Definition setLoading (b : bool) : Js unit :=
  with_auth (λ a, {| user := user a; token := token a; loading := b |}).

Definition setMessages (f : list Message → list Message) : Js unit :=
  with_chat (λ c, {| messages := f (messages c); input := input c;
                     chat_loading := chat_loading c;
                     showHistory := showHistory c;
                     chatHistory := chatHistory c |}).

Definition setInput (s : string) : Js unit :=
  with_chat (λ c, {| messages := messages c; input := s;
                     chat_loading := chat_loading c;
                     showHistory := showHistory c;
                     chatHistory := chatHistory c |}).

(** [ChatPage] calls its own flag [loading] and its setter [setLoading];
    here they are [chat_loading] and [setChatLoading], apart from the
    provider's. *)
Definition setChatLoading (b : bool) : Js unit :=
  with_chat (λ c, {| messages := messages c; input := input c;
                     chat_loading := b;
                     showHistory := showHistory c;
                     chatHistory := chatHistory c |}).

Definition setShowHistory (b : bool) : Js unit :=
  with_chat (λ c, {| messages := messages c; input := input c;
                     chat_loading := chat_loading c;
                     showHistory := b;
                     chatHistory := chatHistory c |}).

Definition setChatHistory (h : list Message) : Js unit :=
  with_chat (λ c, {| messages := messages c; input := input c;
                     chat_loading := chat_loading c;
                     showHistory := showHistory c;
                     chatHistory := h |}).

Definition useAuth : Js AuthState := λ w, (Done (auth w), w).
Definition useChat : Js ChatState := λ w, (Done (chat w), w).

Definition getItem (key : string) : Js (option string) :=
  λ w, (Done (localStorage w !! key), w).

Definition setItem (key value : string) : Js unit :=
  with_storage (λ m, <[key := value]> m).

Definition removeItem (key : string) : Js unit :=
  with_storage (λ m, delete key m).

Definition router_push (path : string) : Js unit :=
  λ w, (Done tt,
        {| auth := auth w; chat := chat w; localStorage := localStorage w;
           pushed := pushed w ++ [path]; console := console w;
           network := network w |}).

Definition console_error (msg : string) : Js unit :=
  λ w, (Done tt,
        {| auth := auth w; chat := chat w; localStorage := localStorage w;
           pushed := pushed w; console := console w ++ [msg];
           network := network w |}).

(** [await fetch(url, ...)]: the request is logged, then the promise
    settles the way the service decides. *)
Definition fetch {A : Type} (method url : string) (bearer : option string)
    (r : Fetched A) : Js (Response A) :=
  λ w,
    let answered := match r with Rejects => None | Responds st _ => Some st end in
    let w' := {| auth := auth w; chat := chat w; localStorage := localStorage w;
                 pushed := pushed w; console := console w;
                 network := network w ++
                   [{| c_method := method; c_url := url; c_bearer := bearer;
                       c_answer := answered |}] |} in
    match r with
    | Rejects => (Thrown FetchFailed, w')
    | Responds st b => (Done (mkResponse st b), w')
    end.

(** [await res.json()] *)
Definition json {A : Type} (res : Response A) : Js A :=
  match body res with
  | Some a => Js_ret a
  | None => throw JsonFailed
  end.

Definition api : string := "http://127.0.0.1:8000".

(** ** Session store ([AuthProvider]) *)

Definition fetchProfile (authToken : string) (r : Fetched User) : Js unit :=
  finally
    (try_catch
       (res <- fetch "GET" (api ++ "/auth/profile") (Some authToken) r ;;
        if ok res then
          userData <- json res ;;
          setUser (Some userData)
        else
          (* Token invalid, clear it *)
          removeItem "access_token" ;;;
          removeItem "refresh_token" ;;;
          setToken None)
       (λ _, console_error "Failed to fetch profile:"))
    (setLoading false).

(** The effect run once when the provider mounts. *)
Definition restore (r : Fetched User) : Js unit :=
  storedToken <- getItem "access_token" ;;
  if truthy storedToken then
    setToken storedToken ;;;
    fetchProfile (js_String storedToken) r
  else
    setLoading false.

Definition login (email password : string) (r : Fetched AuthBody)
    (p : Fetched User) : Js unit :=
  res <- fetch "POST" (api ++ "/auth/login") None r ;;
  if negb (ok res) then
    error <- json res ;;
    throw (Error (js_or (detail error) "Login failed"))
  else
    data <- json res ;;
    setItem "access_token" (js_String (access_token data)) ;;;
    setItem "refresh_token" (js_String (refresh_token data)) ;;;
    setToken (access_token data) ;;;
    fetchProfile (js_String (access_token data)) p ;;;
    router_push "/chat".

Definition signup (email username password : string) (r : Fetched AuthBody)
    (p : Fetched User) : Js unit :=
  res <- fetch "POST" (api ++ "/auth/signup") None r ;;
  if negb (ok res) then
    error <- json res ;;
    throw (Error (js_or (detail error) "Signup failed"))
  else
    data <- json res ;;
    setItem "access_token" (js_String (access_token data)) ;;;
    setItem "refresh_token" (js_String (refresh_token data)) ;;;
    setToken (access_token data) ;;;
    fetchProfile (js_String (access_token data)) p ;;;
    router_push "/chat".

Definition logout : Js unit :=
  removeItem "access_token" ;;;
  removeItem "refresh_token" ;;;
  setToken None ;;;
  setUser None ;;;
  router_push "/auth".

(** The operations of the session store, each with what the service
    answers to the requests it issues. *)
Inductive Op :=
| OpRestore (p : Fetched User)
| OpFetchProfile (authToken : string) (p : Fetched User)
| OpLogin (email password : string) (r : Fetched AuthBody) (p : Fetched User)
| OpSignup (email username password : string) (r : Fetched AuthBody)
    (p : Fetched User)
| OpLogout.

Definition run_op (o : Op) : Js unit :=
  match o with
  | OpRestore p => restore p
  | OpFetchProfile t p => fetchProfile t p
  | OpLogin e pw r p => login e pw r p
  | OpSignup e u pw r p => signup e u pw r p
  | OpLogout => logout
  end.

(** Runs the operations in order; one that throws leaves the world it
    reached, and the next one starts from it. *)
Definition run (ops : list Op) (w : World) : World :=
  fold_left (λ w o, after (run_op o) w) ops w.

(** A profile request carrying [t] was answered with a success status. *)
Definition validates (t : string) (c : Call) : bool :=
  String.eqb (c_url c) (api ++ "/auth/profile")
  && match c_bearer c with Some b => String.eqb b t | None => false end
  && match c_answer c with
     | Some st => (200 <=? st) && (st <=? 299)
     | None => false
     end.

Definition validated (t : string) (w : World) : bool :=
  existsb (validates t) (network w).

(** The session invariant of the data model: a user is present only
    together with an in-memory token that a profile fetch validated. *)
Definition session_inv (w : World) : Prop :=
  ∀ u, user (auth w) = Some u →
    ∃ t, token (auth w) = Some t ∧ validated t w = true.

(** ** Route guard ([ProtectedWrapper]) *)

Inductive Rendered :=
| LoadingScreen
| Children
| Nothing
| WithSidebar.

Definition publicPaths : list string := ["/auth"].

Definition includes (l : list string) (s : string) : bool :=
  existsb (String.eqb s) l.

(** The redirect effect, as a function of what the component reads. *)
Definition guard_redirect (u : option User) (ld : bool) (pathname : string)
    : option string :=
  let isPublicPath := includes publicPaths pathname in
  if negb ld then
    if negb (bool_decide (is_Some u)) && negb isPublicPath then Some "/auth"
    else if bool_decide (is_Some u) && isPublicPath then Some "/"
    else None
  else None.

(** What the component returns. *)
Definition guard_render (u : option User) (ld : bool) (pathname : string)
    : Rendered :=
  let isPublicPath := includes publicPaths pathname in
  if ld then LoadingScreen
  else if isPublicPath then Children
  else if negb (bool_decide (is_Some u)) then Nothing
  else WithSidebar.

Definition ProtectedWrapper (pathname : string) : Js Rendered :=
  a <- useAuth ;;
  match guard_redirect (user a) (loading a) pathname with
  | Some target => router_push target
  | None => Js_ret tt
  end ;;;
  Js_ret (guard_render (user a) (loading a) pathname).

(** ** Conversation manager ([ChatPage]) *)

(** The entry built from one element of the history answer. *)
Definition of_wire (msg : WireMessage) : Message :=
  {| m_id := w_id msg;
     m_role := w_role msg;
     m_content := Some (w_content msg);
     m_sources := Some (default [] (w_sources msg));
     m_timestamp := DateOf (w_timestamp msg) |}.

Definition loadChatHistory (r : Fetched (list WireMessage)) : Js unit :=
  a <- useAuth ;;
  if negb (truthy (token a)) then Js_ret tt
  else
    try_catch
      (res <- fetch "GET" (api ++ "/chat/history") (token a) r ;;
       if ok res then
         data <- json res ;;
         let history := map of_wire data in
         setChatHistory (reverse history)
       else Js_ret tt)
      (λ _, console_error "Failed to load history:").

Definition error_text : string := "Error connecting to secure backend.".

(** The assistant entry appended by the [catch] block of [send]. *)
Definition error_message (now : Z) : Message :=
  {| m_id := None; m_role := assistant_role; m_content := Some error_text;
     m_sources := None; m_timestamp := DateNow now |}.

(** [send]: [t_sent] and [t_reply] are the clock readings of the two
    [new Date()] the call can evaluate, [r] is the answer to the chat
    request and [h] the answer to the history request that follows a
    reply. *)
Definition send (t_sent t_reply : Z) (r : Fetched ChatBody)
    (h : Fetched (list WireMessage)) : Js unit :=
  c <- useChat ;;
  a <- useAuth ;;
  if negb (truthy_string (trim (input c))) || negb (truthy (token a)) then
    Js_ret tt
  else
    let userMsg :=
      {| m_id := None; m_role := user_role; m_content := Some (input c);
         m_sources := None; m_timestamp := DateNow t_sent |} in
    setMessages (λ prev, (prev ++ [userMsg])%list) ;;;
    setInput "" ;;;
    setChatLoading true ;;;
    finally
      (try_catch
         (res <- fetch "POST" (api ++ "/chat") (token a) r ;;
          if status res =? 401 then
            router_push "/auth"
          else
            data <- json res ;;
            setMessages (λ prev, (prev ++
              [{| m_id := None; m_role := assistant_role;
                  m_content := answer data; m_sources := sources data;
                  m_timestamp := DateNow t_reply |}])%list) ;;;
            loadChatHistory h)
         (λ _, setMessages (λ prev, (prev ++ [error_message t_reply])%list)))
      (setChatLoading false).

Definition loadHistoryIntoChat (historyMessages : list Message) (now : Z)
    : Js unit :=
  setMessages (λ _, greeting now :: historyMessages) ;;;
  setShowHistory false.

(** The click handler of the history entry at index [idx]. *)
Definition onClick (idx : Z) (now : Z) : Js unit :=
  c <- useChat ;;
  let start := Z.max 0 (idx - 5) in
  let end_ := Z.min (Z.of_nat (length (chatHistory c))) (idx + 6) in
  loadHistoryIntoChat (slice (chatHistory c) start end_) now.

(** ** The rest of [ChatPage] *)

(** The effect that runs when the page mounts and whenever [user] or
    [token] changes. *)
Definition ChatPage_effect (h : Fetched (list WireMessage)) : Js unit :=
  a <- useAuth ;;
  if negb (bool_decide (is_Some (user a))) || negb (truthy (token a)) then
    router_push "/auth"
  else
    loadChatHistory h.

(** The handlers a user can trigger on the page, with what the service
    answers to the requests they issue. *)
Inductive ChatOp :=
| ChType (text : string)
| ChSend (t_sent t_reply : Z) (r : Fetched ChatBody)
    (h : Fetched (list WireMessage))
| ChEffect (h : Fetched (list WireMessage))
| ChToggleHistory
| ChClick (idx now : Z).

Definition run_chat_op (o : ChatOp) : Js unit :=
  match o with
  | ChType text => setInput text
  | ChSend t_sent t_reply r h => send t_sent t_reply r h
  | ChEffect h => ChatPage_effect h
  | ChToggleHistory => c <- useChat ;; setShowHistory (negb (showHistory c))
  | ChClick idx now => onClick idx now
  end.

Definition run_chat (ops : list ChatOp) (w : World) : World :=
  fold_left (λ w o, after (run_chat_op o) w) ops w.

(** The transcript starts with the greeting. *)
Definition greeted (w : World) : Prop :=
  ∃ now, head (messages (chat w)) = Some (greeting now).

(** *** Relative times *)

(** The numbers [formatTimestamp] computes with are doubles.  A time
    is an integer of at most [max_time] in absolute value, or NaN
    ([None]).  Where the difference of two times is below 2^53 it is
    held exactly, and so is the floor of each quotient the function
    takes: a quotient that is no integer lies at least 1/1000 from the
    next integer, more than half a unit in the last place of a double
    below 2^53 / 1000.  Beyond 2^53 the difference itself is rounded,
    and this model does not follow it: [formatTimestamp] answers [None]
    there. *)
Definition max_time : Z := 8640000000000000.

Definition time_value (x : option Z) : bool :=
  match x with
  | Some n => Z.abs n <=? max_time
  | None => true
  end.

Definition exactly_held (x : option Z) : bool :=
  match x with
  | Some n => Z.abs n <? 2 ^ 53
  | None => true
  end.

Definition getTime (parse : string → option Z) (d : Date) : option Z :=
  match d with
  | DateNow ms => Some ms
  | DateOf iso => parse iso
  end.

(** [Math.floor(x / k)] *)
Definition floor_div (x : option Z) (k : Z) : option Z := (λ n, n / k) <$> x.

(** [x > 0], false on NaN. *)
Definition js_positive (x : option Z) : bool :=
  match x with
  | Some n => 0 <? n
  | None => false
  end.

(** A number inside a template literal. *)
Definition js_number (x : option Z) : string :=
  match x with
  | Some n => pretty n
  | None => "NaN"
  end.

(** [parse] gives the time of a date built from a string, [now] is the
    clock read by [new Date()]. *)
Definition formatTimestamp (parse : string → option Z) (now : Z)
    (date : Date) : option string :=
  let time := getTime parse date in
  let diff := (λ t, now - t) <$> time in
  if negb (time_value (Some now) && time_value time && exactly_held diff)
  then None
  else
    let seconds := floor_div diff 1000 in
    let minutes := floor_div seconds 60 in
    let hours := floor_div minutes 60 in
    let days := floor_div hours 24 in
    Some
      (if js_positive days then (js_number days ++ "d ago")%string
       else if js_positive hours then (js_number hours ++ "h ago")%string
       else if js_positive minutes then (js_number minutes ++ "m ago")%string
       else "Just now").

(** ** The sign-in form ([Auth]) *)

Record AuthForm := mkAuthForm {
  isSignUp : bool;
  form_email : string;
  form_username : string;
  form_password : string;
  form_error : string;
  form_loading : bool
}.

(** [err.message]: the text of an [Error] the code threw, or the text
    [native] the browser gives to the errors it raises itself. *)
Definition message_of (native : Exn → string) (e : Exn) : string :=
  match e with
  | Error m => m
  | _ => native e
  end.

Definition handleSubmit (native : Exn → string) (r : Fetched AuthBody)
    (p : Fetched User) (f : AuthForm) (w : World) : AuthForm * World :=
  let submitting :=
    {| isSignUp := isSignUp f; form_email := form_email f;
       form_username := form_username f; form_password := form_password f;
       form_error := ""; form_loading := true |} in
  let failed (msg : string) :=
    {| isSignUp := isSignUp f; form_email := form_email f;
       form_username := form_username f; form_password := form_password f;
       form_error := msg; form_loading := false |} in
  let catch (e : Exn) :=
    failed (js_or (Some (message_of native e)) "Authentication failed") in
  if isSignUp f then
    if negb (truthy_string (trim (form_username f))) then
      (failed "Username is required", w)
    else
      match signup (form_email f) (form_username f) (form_password f) r p w with
      | (Done _, w') => (submitting, w')
      | (Thrown e, w') => (catch e, w')
      end
  else
    match login (form_email f) (form_password f) r p w with
    | (Done _, w') => (submitting, w')
    | (Thrown e, w') => (catch e, w')
    end.

(** ** The profile page ([ProfilePage]) *)

Record ProfileState := mkProfile {
  clearing : bool;
  alerts : list string
}.

(** [confirmed] is what the user answers to the confirmation dialog;
    the body of the answer is never read. *)
Definition handleClearHistory (confirmed : bool) (r : Fetched unit)
    (s : ProfileState) (w : World) : ProfileState * World :=
  if negb confirmed then (s, w)
  else
    let request :=
      stored <- getItem "access_token" ;;
      res <- fetch "DELETE" (api ++ "/chat/history")
               (Some (default "null" stored)) r ;;
      Js_ret (ok res) in
    match request w with
    | (Done true, w') =>
        ({| clearing := false;
            alerts := alerts s ++ ["Chat history cleared successfully"] |}, w')
    | (Done false, w') =>
        ({| clearing := false; alerts := alerts s |}, w')
    | (Thrown _, w') =>
        ({| clearing := false;
            alerts := alerts s ++ ["Failed to clear chat history"] |}, w')
    end.

(** ** Vocabulary of the statements *)

(** The entry [send] appends for the text typed by the user. *)
Definition user_message (text : string) (now : Z) : Message :=
  {| m_id := None; m_role := user_role; m_content := Some text;
     m_sources := None; m_timestamp := DateNow now |}.

(** The chat request [send] logs. *)
Definition chat_call (tok : string) (answered : option Z) : Call :=
  {| c_method := "POST"; c_url := api ++ "/chat"; c_bearer := Some tok;
     c_answer := answered |}.

(** The window of the specification, written from its words: the
    entries at positions [max(0, anchor - radius)] (included) to
    [min(length, anchor + radius + 1)] (excluded), in order. *)
Definition windowHistory_spec (history : list Message) (anchor radius : Z)
    : list Message :=
  let lo := Z.max 0 (anchor - radius) in
  let hi := Z.min (Z.of_nat (length history)) (anchor + radius + 1) in
  take (Z.to_nat (hi - lo)) (drop (Z.to_nat lo) history).

(** The requests the handlers log. *)
Definition login_call (st : option Z) : Call :=
  {| c_method := "POST"; c_url := api ++ "/auth/login"; c_bearer := None;
     c_answer := st |}.

Definition profile_call (t : string) (st : option Z) : Call :=
  {| c_method := "GET"; c_url := api ++ "/auth/profile"; c_bearer := Some t;
     c_answer := st |}.

Definition history_call (tok : string) (answered : option Z) : Call :=
  {| c_method := "GET"; c_url := api ++ "/chat/history"; c_bearer := Some tok;
     c_answer := answered |}.

Definition answered {A : Type} (r : Fetched A) : option Z :=
  match r with
  | Rejects => None
  | Responds st _ => Some st
  end.

Definition delete_call (bearer : string) (st : option Z) : Call :=
  {| c_method := "DELETE"; c_url := api ++ "/chat/history";
     c_bearer := Some bearer; c_answer := st |}.

(** The token in memory is the persisted access token. *)
Definition token_mirrors_storage (w : World) : Prop :=
  ∀ t, token (auth w) = Some t → localStorage w !! "access_token" = Some t.

(** Some profile request has been answered with a success status. *)
Definition some_profile_accepted (w : World) : Prop :=
  ∃ t, validated t w = true.

(** *** Sample data *)

(** The string made of the given bytes. *)
Definition bytes (l : list N) : string :=
  string_of_list_ascii (map ascii_of_N l).

(** The white space and line terminators of ECMAScript, in UTF-8. *)
Definition white_space : list (list N) :=
  [[9]; [10]; [11]; [12]; [13]; [32]; [194; 160]; [225; 154; 128];
   [226; 128; 128]; [226; 128; 129]; [226; 128; 130]; [226; 128; 131];
   [226; 128; 132]; [226; 128; 133]; [226; 128; 134]; [226; 128; 135];
   [226; 128; 136]; [226; 128; 137]; [226; 128; 138]; [226; 128; 168];
   [226; 128; 169]; [226; 128; 175]; [226; 129; 159]; [227; 128; 128];
   [239; 187; 191]]%N.

(** Characters that are no white space for [trim]: U+0085, U+200B,
    U+200D, U+2060, U+180E, a letter with the byte A0 in its encoding
    (U+00E0), an emoji, and the controls U+0000, U+0008 and U+000E. *)
Definition not_white_space : list (list N) :=
  [[194; 133]; [226; 128; 139]; [226; 128; 141]; [226; 129; 160];
   [225; 160; 142]; [195; 160]; [240; 159; 152; 128]; [0]; [8]; [14]]%N.

Definition alice : User :=
  {| u_id := 1; u_email := "alice@example.org"; u_username := "alice";
     u_created_at := "2024-01-01T00:00:00"; u_last_login := None |}.

Definition token_pair (a r : string) : AuthBody :=
  {| detail := None; access_token := Some a; refresh_token := Some r |}.

Definition wire (n : Z) (text stamp : string) : WireMessage :=
  {| w_id := Some n; w_role := user_role; w_content := text;
     w_sources := None; w_timestamp := stamp |}.

Definition past (n : Z) (text : string) : Message :=
  {| m_id := Some n; m_role := user_role; m_content := Some text;
     m_sources := Some []; m_timestamp := DateOf "2024-01-01T00:00:00" |}.

(** * Properties *)

(** ** White space

    [trim] on each of the 25 characters ECMAScript counts as white
    space or line terminator, alone, around a word, and all together;
    and on characters that look like spaces and are none. *)
Example trim_removes_white_space :
  forallb (λ c, String.eqb (trim (bytes c)) "") white_space = true
  ∧ forallb (λ c, String.eqb (trim (bytes (c ++ [104; 105]%N ++ c))) "hi")
      white_space = true
  ∧ trim (bytes (concat white_space)) = "".
Proof. by vm_compute. Qed.

Example trim_keeps_other_characters :
  forallb (λ c, String.eqb (trim (bytes c)) (bytes c)) not_white_space = true
  ∧ forallb (λ c, String.eqb (trim (bytes ([32%N] ++ c ++ [194; 160]%N)))
                    (bytes c)) not_white_space = true
  ∧ trim "  a b  " = "a b".
Proof. by vm_compute. Qed.

(** ** Symbolic execution of handlers *)

Ltac js_run :=
  cbv [after completion run_op
       fetchProfile restore login signup logout loadChatHistory send
       loadHistoryIntoChat onClick ProtectedWrapper
       Js_bind Js_ret throw try_catch finally
       with_auth with_chat with_storage
       setUser setToken setLoading setMessages setInput setChatLoading
       setShowHistory setChatHistory useAuth useChat
       getItem setItem removeItem router_push console_error fetch json
       status body fst snd
       auth chat localStorage pushed console network
       user token loading messages input chat_loading showHistory chatHistory].

(** Opens a world into its cells, so that projections compute. *)
Ltac open_world w :=
  let a := fresh "a" in
  let c := fresh "c" in
  destruct w as [a c ? ? ? ?]; destruct a, c; cbn [auth chat user token loading
    messages input chat_loading showHistory chatHistory localStorage pushed
    console network] in *.

Lemma ok_in_range {A : Type} (st : Z) (b : option A) :
  200 ≤ st ≤ 299 → ok (mkResponse st b) = true.
Proof. intros H. unfold ok; cbn [status]. apply andb_true_intro; lia. Qed.

Lemma ok_out_of_range {A : Type} (st : Z) (b : option A) :
  st < 200 ∨ 299 < st → ok (mkResponse st b) = false.
Proof. intros H. unfold ok; cbn [status]. apply andb_false_iff; lia. Qed.

Lemma truthy_string_nonempty (s : string) : s ≠ "" → truthy_string s = true.
Proof.
  intros H. unfold truthy_string. apply negb_true_iff.
  by apply String.eqb_neq.
Qed.

Lemma truthy_Some (s : string) : s ≠ "" → truthy (Some s) = true.
Proof. apply truthy_string_nonempty. Qed.

(** ** Session store *)

(** What [fetchProfile] leaves behind on each of its paths. *)
Lemma fetchProfile_accepts (authToken : string) (st : Z) (u : User) (w : World) :
  200 ≤ st ≤ 299 →
  auth (after (fetchProfile authToken (Responds st (Some u))) w)
  = {| user := Some u; token := token (auth w); loading := false |}.
Proof.
  intros Hst. open_world w. js_run. by rewrite ok_in_range.
Qed.

Lemma fetchProfile_rejects (authToken : string) (st : Z) (b : option User)
    (w : World) :
  st < 200 ∨ 299 < st →
  auth (after (fetchProfile authToken (Responds st b)) w)
  = {| user := user (auth w); token := None; loading := false |}
  ∧ localStorage (after (fetchProfile authToken (Responds st b)) w)
    = delete "refresh_token" (delete "access_token" (localStorage w)).
Proof.
  intros Hst. open_world w. js_run. by rewrite ok_out_of_range.
Qed.

(** C4. [fetchProfile] completes without throwing and with [loading]
    set to [false] on every path: a success response, a non-success
    response, a response whose body cannot be read, and a rejected
    request. *)
Theorem fetchProfile_clears_loading (authToken : string) (r : Fetched User)
    (w : World) :
  completion (fetchProfile authToken r) w = Done tt
  ∧ loading (auth (after (fetchProfile authToken r) w)) = false.
Proof.
  open_world w.
  destruct r as [|st [b|]]; js_run; [done | |];
    destruct (ok _); js_run; done.
Qed.

(** C7. When the provider mounts with a persisted access token and the
    profile endpoint answers the request that carries it with a
    non-success status, the restoration ends with no user, no in-memory
    token and neither token in [localStorage] (and with [loading]
    cleared).  An empty stored string is not a token: the effect treats
    it as absent and asks nothing. *)
Theorem restore_rejected_token (t : string) (st : Z) (b : option User)
    (w : World) :
  auth w = initial_auth →
  localStorage w !! "access_token" = Some t →
  t ≠ "" →
  st < 200 ∨ 299 < st →
  let w' := after (restore (Responds st b)) w in
  completion (restore (Responds st b)) w = Done tt
  ∧ user (auth w') = None
  ∧ token (auth w') = None
  ∧ localStorage w' !! "access_token" = None
  ∧ localStorage w' !! "refresh_token" = None
  ∧ loading (auth w') = false
  ∧ last (network w')
    = Some {| c_method := "GET"; c_url := api ++ "/auth/profile";
              c_bearer := Some t; c_answer := Some st |}.
Proof.
  intros Ha Hs Ht Hst. open_world w. injection Ha as -> -> ->.
  js_run. rewrite Hs, (truthy_Some _ Ht). js_run.
  rewrite ok_out_of_range by done. cbn [js_String].
  rewrite last_snoc.
  repeat split.
  - rewrite lookup_delete_ne by done. apply lookup_delete_eq.
  - apply lookup_delete_eq.
Qed.

Lemma restore_rejected_token_witness :
  let w := initial_world 0 {[ "access_token" := "T0"; "refresh_token" := "R0" ]} in
  let w' := after (restore (Responds 401 None)) w in
  user (auth w') = None ∧ token (auth w') = None
  ∧ localStorage w' !! "access_token" = None
  ∧ localStorage w' !! "refresh_token" = None.
Proof.
  intros w w'.
  destruct (restore_rejected_token "T0" 401 None w) as (_ & Hu & Ht & Ha & Hr & _).
  - reflexivity.
  - vm_compute; reflexivity.
  - discriminate.
  - lia.
  - exact (conj Hu (conj Ht (conj Ha Hr))).
Defined.

(** With a non-success status [login] throws before it writes anything,
    also when the body of the answer cannot be read. *)
Lemma login_non_ok_unchanged (email password : string) (st : Z)
    (b : option AuthBody) (p : Fetched User) (w : World) :
  st < 200 ∨ 299 < st →
  let attempt := login email password (Responds st b) p in
  (∃ e, completion attempt w = Thrown e)
  ∧ auth (after attempt w) = auth w
  ∧ localStorage (after attempt w) = localStorage w.
Proof.
  intros Hst attempt. subst attempt. open_world w. js_run.
  rewrite ok_out_of_range by done. cbn [negb].
  destruct b as [error|]; js_run; eauto.
Qed.

(** C8, as the code has it.  When the login request is answered with a
    non-success status, [login] throws and the session is as before: the
    user, the in-memory token, the loading flag and [localStorage] are
    untouched, nothing is pushed to the router, and the login request is
    the only one issued.  When the body of the answer can be read, the
    error is an [Error] whose message is the [detail] of that body, or
    ["Login failed"] when the body has no [detail] (an empty [detail]
    counts as none).  When the body cannot be read, the error is the one
    [res.json()] raised. *)
Theorem login_failure (email password : string) (st : Z)
    (b : option AuthBody) (p : Fetched User) (w : World) :
  st < 200 ∨ 299 < st →
  let attempt := login email password (Responds st b) p in
  (∃ e, completion attempt w = Thrown e)
  ∧ (∀ error d, b = Some error → detail error = Some d → d ≠ "" →
       completion attempt w = Thrown (Error d))
  ∧ (∀ error, b = Some error →
       detail error = None ∨ detail error = Some "" →
       completion attempt w = Thrown (Error "Login failed"))
  ∧ (b = None → completion attempt w = Thrown JsonFailed)
  ∧ auth (after attempt w) = auth w
  ∧ (user (auth w) = None → user (auth (after attempt w)) = None)
  ∧ localStorage (after attempt w) = localStorage w
  ∧ pushed (after attempt w) = pushed w
  ∧ network (after attempt w)
    = (network w ++ [{| c_method := "POST"; c_url := api ++ "/auth/login";
                        c_bearer := None; c_answer := Some st |}])%list.
Proof.
  intros Hst attempt. subst attempt. open_world w. js_run.
  rewrite ok_out_of_range by done. cbn [negb].
  destruct b as [error|]; js_run.
  - split_and!; try done; eauto.
    + intros e d [= <-] Hd Hne. unfold js_or. rewrite Hd.
      by rewrite truthy_string_nonempty.
    + intros e [= <-] [Hd | Hd]; unfold js_or; by rewrite Hd.
  - split_and!; try done; eauto.
Qed.

Lemma login_failure_witness :
  let w := initial_world 0 ∅ in
  let wrong := {| detail := Some "Incorrect email or password";
                  access_token := None; refresh_token := None |} in
  let attempt := login "a@example.org" "nope" (Responds 401 (Some wrong)) Rejects in
  completion attempt w = Thrown (Error "Incorrect email or password")
  ∧ user (auth (after attempt w)) = None
  ∧ auth (after attempt w) = auth w
  ∧ localStorage (after attempt w) = localStorage w.
Proof.
  intros w wrong attempt.
  destruct (login_failure "a@example.org" "nope" 401 (Some wrong) Rejects w)
    as (_ & Hd & _ & _ & Ha & Hu & Hs & _); [lia |].
  split_and!; [| by apply Hu | exact Ha | exact Hs].
  apply (Hd wrong); [reflexivity | reflexivity | discriminate].
Defined.

(** C8, as stated, fails: a non-success answer whose body is not JSON
    (a 502 page of a proxy, say) makes [login] throw what [res.json()]
    raised, which is neither an [Error] carrying a [detail] nor the
    [Error] with the generic message. *)
Lemma login_unreadable_body_counterexample :
  let w := initial_world 0 ∅ in
  let attempt := login "a@example.org" "nope" (Responds 502 None) Rejects in
  completion attempt w = Thrown JsonFailed
  ∧ completion attempt w ≠ Thrown (Error "Login failed")
  ∧ ∀ d, completion attempt w ≠ Thrown (Error d).
Proof.
  intros w attempt. split_and!; [by vm_compute | by vm_compute |].
  intros d. by vm_compute.
Qed.

(** *** The session invariant *)

(** [logout] establishes the invariant from any state. *)
Lemma logout_session_inv (w : World) : session_inv (after logout w).
Proof. open_world w. intros u. js_run. discriminate. Qed.

(** A profile fetch that starts without a user keeps the invariant,
    whatever the service answers, when it validates the in-memory
    token. *)
Lemma fetchProfile_session_inv (t : string) (r : Fetched User) (w : World) :
  user (auth w) = None →
  token (auth w) = Some t →
  session_inv (after (fetchProfile t r) w).
Proof.
  intros Hu Ht. open_world w. subst. intros u.
  destruct r as [|st [b|]]; js_run; try discriminate.
  - destruct (ok _) eqn:Hok; js_run; [| discriminate].
    intros _. exists t. split; [done |].
    unfold validated; cbn [network]. rewrite existsb_app.
    apply orb_true_iff; right. cbn [existsb]. rewrite orb_false_r.
    unfold validates; cbn [c_url c_bearer c_answer].
    rewrite !String.eqb_refl. exact Hok.
  - destruct (ok _); js_run; discriminate.
Qed.

(** C1. The invariant does not survive a login whose profile fetch is
    answered with a non-success status while a user is present: that
    branch of [fetchProfile] removes the tokens and leaves [user] as it
    was.  Starting from the mount state, a restoration with no stored
    token and a successful login reach a state [w1] that satisfies the
    invariant; a second login, accepted by the login endpoint and
    answered 401 by the profile endpoint, ends with alice still the user
    and no token. *)
Theorem session_inv_broken_by_rejected_profile :
  let w0 := initial_world 0 ∅ in
  let w1 := run [OpRestore Rejects;
                 OpLogin "alice@example.org" "pw"
                   (Responds 200 (Some (token_pair "T1" "R1")))
                   (Responds 200 (Some alice))] w0 in
  let w2 := after (login "alice@example.org" "pw"
                     (Responds 200 (Some (token_pair "T2" "R2")))
                     (Responds 401 None)) w1 in
  session_inv w1
  ∧ user (auth w2) = Some alice
  ∧ token (auth w2) = None
  ∧ localStorage w2 !! "access_token" = None
  ∧ ¬ session_inv w2.
Proof.
  intros w0 w1 w2. split_and!.
  - intros u _. exists "T1". by vm_compute.
  - by vm_compute.
  - by vm_compute.
  - by vm_compute.
  - intros H. destruct (H alice) as (t & Ht & _); [by vm_compute |].
    vm_compute in Ht. discriminate.
Qed.

(** ** Route guard *)

Lemma includes_publicPaths (pathname : string) :
  includes publicPaths pathname = bool_decide (pathname = "/auth").
Proof.
  unfold includes, publicPaths; cbn [existsb]. rewrite orb_false_r.
  case_bool_decide as H.
  - by apply String.eqb_eq.
  - by apply String.eqb_neq.
Qed.

(** C5. The guard reads [user], [loading] and the path, and nothing
    else; it completes with the rendering [guard_render] gives for them,
    pushes to the router exactly the redirect [guard_redirect] gives for
    them, and leaves the session, [localStorage], the chat state, the
    console and the request log as they were.  While [loading] there is
    no redirect and the waiting screen is rendered; without a user on a
    protected path the redirect goes to ["/auth"]; with a user on the
    public path it goes to ["/"]; with a user on a protected path, or
    without one on the public path, there is no redirect and the
    children are rendered (inside the sidebar layout on a protected
    path). *)
Theorem ProtectedWrapper_decision (pathname : string) (w : World) :
  let guard := ProtectedWrapper pathname in
  completion guard w
    = Done (guard_render (user (auth w)) (loading (auth w)) pathname)
  ∧ pushed (after guard w)
    = (pushed w ++ option_list
         (guard_redirect (user (auth w)) (loading (auth w)) pathname))%list
  ∧ auth (after guard w) = auth w
  ∧ localStorage (after guard w) = localStorage w
  ∧ chat (after guard w) = chat w
  ∧ console (after guard w) = console w
  ∧ network (after guard w) = network w
  ∧ (∀ u, guard_redirect u true pathname = None
          ∧ guard_render u true pathname = LoadingScreen)
  ∧ (pathname ≠ "/auth" →
       guard_redirect None false pathname = Some "/auth")
  ∧ (∀ u, guard_redirect (Some u) false "/auth" = Some "/")
  ∧ (∀ u, pathname ≠ "/auth" →
       guard_redirect (Some u) false pathname = None
       ∧ guard_render (Some u) false pathname = WithSidebar)
  ∧ guard_redirect None false "/auth" = None
  ∧ guard_render None false "/auth" = Children.
Proof.
  intros guard. subst guard.
  split_and!.
  - open_world w. js_run. by destruct (guard_redirect _ _ _).
  - open_world w. js_run. destruct (guard_redirect _ _ _); cbn [option_list].
    + done.
    + by rewrite app_nil_r.
  - open_world w. js_run. by destruct (guard_redirect _ _ _).
  - open_world w. js_run. by destruct (guard_redirect _ _ _).
  - open_world w. js_run. by destruct (guard_redirect _ _ _).
  - open_world w. js_run. by destruct (guard_redirect _ _ _).
  - open_world w. js_run. by destruct (guard_redirect _ _ _).
  - done.
  - intros Hne. unfold guard_redirect. rewrite includes_publicPaths.
    by rewrite (bool_decide_eq_false_2 (pathname = "/auth")).
  - done.
  - intros u Hne. unfold guard_redirect, guard_render.
    rewrite includes_publicPaths.
    by rewrite (bool_decide_eq_false_2 (pathname = "/auth")).
  - done.
  - done.
Qed.

Lemma ProtectedWrapper_decision_witness :
  let w := after (setLoading false) (initial_world 0 ∅) in
  completion (ProtectedWrapper "/chat") w = Done Nothing
  ∧ pushed (after (ProtectedWrapper "/chat") w) = ["/auth"]
  ∧ guard_redirect None false "/chat" = Some "/auth".
Proof.
  intros w.
  destruct (ProtectedWrapper_decision "/chat" w)
    as (Hc & Hp & _ & _ & _ & _ & _ & _ & Hr & _).
  split_and!; [by rewrite Hc | by rewrite Hp | by apply Hr].
Defined.

(** ** Conversation manager *)

Ltac send_enters Htxt Htok :=
  js_run;
  rewrite (truthy_string_nonempty _ Htxt), (truthy_Some _ Htok);
  cbn [negb orb]; js_run.

(** C6. With a non-blank input and a token, a chat answer of status 401
    makes [send] push ["/auth"] and stop: the transcript is the previous
    one followed by the user's message and nothing else, no history
    request follows the chat request, the stored history is untouched,
    and the call completes without throwing. *)
Theorem send_unauthorized (t_sent t_reply : Z) (b : option ChatBody)
    (h : Fetched (list WireMessage)) (text tok : string) (w : World) :
  input (chat w) = text →
  trim text ≠ "" →
  token (auth w) = Some tok →
  tok ≠ "" →
  let call := send t_sent t_reply (Responds 401 b) h in
  completion call w = Done tt
  ∧ pushed (after call w) = (pushed w ++ ["/auth"])%list
  ∧ messages (chat (after call w))
    = (messages (chat w) ++ [user_message text t_sent])%list
  ∧ chatHistory (chat (after call w)) = chatHistory (chat w)
  ∧ network (after call w) = (network w ++ [chat_call tok (Some 401)])%list.
Proof.
  intros Hin Htxt Ht Htok call. subst call. open_world w. subst.
  send_enters Htxt Htok. done.
Qed.

Lemma send_unauthorized_witness :
  let w := after (setInput "hello" ;;; setToken (Some "T1") ;;; setUser (Some alice))
             (initial_world 0 ∅) in
  let call := send 1 2 (Responds 401 None) Rejects in
  pushed (after call w) = ["/auth"]
  ∧ messages (chat (after call w)) = [greeting 0; user_message "hello" 1].
Proof.
  intros w call.
  destruct (send_unauthorized 1 2 None Rejects "hello" "T1" w)
    as (_ & Hp & Hm & _); [reflexivity | discriminate | reflexivity | discriminate |].
  exact (conj Hp Hm).
Defined.

(** C3, as the code has it.  With a non-blank input and a token, [send]
    never throws and always ends with the loading flag cleared, whatever
    the chat and history requests yield.  When the chat request throws,
    because [fetch] rejects or because the body of a response other than
    401 cannot be read, the transcript is the previous one followed by
    the user's message and the synthetic error message. *)
Theorem send_failure_appends_error (t_sent t_reply : Z) (text tok : string)
    (w : World) :
  input (chat w) = text →
  trim text ≠ "" →
  token (auth w) = Some tok →
  tok ≠ "" →
  (∀ r h,
     completion (send t_sent t_reply r h) w = Done tt
     ∧ chat_loading (chat (after (send t_sent t_reply r h) w)) = false)
  ∧ (∀ h,
       messages (chat (after (send t_sent t_reply Rejects h) w))
       = (messages (chat w)
          ++ [user_message text t_sent; error_message t_reply])%list)
  ∧ (∀ st h, st ≠ 401 →
       messages (chat (after (send t_sent t_reply (Responds st None) h) w))
       = (messages (chat w)
          ++ [user_message text t_sent; error_message t_reply])%list).
Proof.
  intros Hin Htxt Ht Htok. open_world w. subst. split_and!.
  - intros r h. send_enters Htxt Htok.
    destruct r as [|st [d|]]; js_run; [done | |].
    + destruct (st =? 401); js_run; [done |].
      rewrite (truthy_Some _ Htok); cbn [negb]; js_run.
      destruct h as [|st' [d'|]]; js_run; [done | |];
        destruct (ok _); js_run; done.
    + destruct (st =? 401); js_run; done.
  - intros h. send_enters Htxt Htok. by rewrite <- app_assoc.
  - intros st h Hst. send_enters Htxt Htok.
    apply Z.eqb_neq in Hst. rewrite Hst. js_run. by rewrite <- app_assoc.
Qed.

Lemma send_failure_appends_error_witness :
  let w := after (setInput "hello" ;;; setToken (Some "T1") ;;; setUser (Some alice))
             (initial_world 0 ∅) in
  let call := send 1 2 Rejects Rejects in
  completion call w = Done tt
  ∧ chat_loading (chat (after call w)) = false
  ∧ messages (chat (after call w))
    = [greeting 0; user_message "hello" 1; error_message 2].
Proof.
  intros w call.
  destruct (send_failure_appends_error 1 2 "hello" "T1" w)
    as (Hall & Hrej & _); [reflexivity | discriminate | reflexivity | discriminate |].
  destruct (Hall Rejects Rejects) as [Hc Hl].
  exact (conj Hc (conj Hl (Hrej Rejects))).
Defined.

(** C3, as stated, fails: a chat answer of status 500 whose body is a
    JSON object without [answer] is a failed request that is not an
    authorization failure, and [send] appends an assistant entry built
    from that body, with no content, instead of the synthetic error
    message. *)
Lemma send_server_error_counterexample :
  let w := after (setInput "hello" ;;; setToken (Some "T1") ;;; setUser (Some alice))
             (initial_world 0 ∅) in
  let failure := Responds 500 (Some {| answer := None; sources := None |}) in
  let call := send 1 2 failure (Responds 200 (Some [])) in
  trim (input (chat w)) = "hello"
  ∧ token (auth w) = Some "T1"
  ∧ messages (chat (after call w))
    = [greeting 0; user_message "hello" 1;
       {| m_id := None; m_role := assistant_role; m_content := None;
          m_sources := None; m_timestamp := DateNow 2 |}]
  ∧ error_message 2 ∉ messages (chat (after call w)).
Proof.
  intros w failure call. split_and!; try by vm_compute.
  intros Hin. vm_compute in Hin.
  repeat (apply elem_of_cons in Hin as [Hin | Hin]; [discriminate |]).
  by apply elem_of_nil in Hin.
Qed.

(** What a successful history load stores. *)
Lemma loadChatHistory_stores (st : Z) (data : list WireMessage) (tok : string)
    (w : World) :
  token (auth w) = Some tok →
  tok ≠ "" →
  200 ≤ st ≤ 299 →
  chatHistory (chat (after (loadChatHistory (Responds st (Some data))) w))
  = reverse (map of_wire data)
  ∧ auth (after (loadChatHistory (Responds st (Some data))) w) = auth w.
Proof.
  intros Ht Htok Hst. open_world w. subst. js_run.
  rewrite (truthy_Some _ Htok); cbn [negb]; js_run.
  by rewrite ok_in_range.
Qed.

(** C9. With a token and a success answer carrying [data], newest
    first, [loadChatHistory] stores exactly the reverse of [data], entry
    by entry: the entry at position [i] is the one the service sent at
    position [length data - 1 - i], with its id, role, content and
    timestamp, and with its sources (none standing for the empty list).
    The stored history is a function of the answer alone, so a second
    load against the same answer stores the same history. *)
Theorem loadChatHistory_reverses (st : Z) (data : list WireMessage)
    (tok : string) (w : World) :
  token (auth w) = Some tok →
  tok ≠ "" →
  200 ≤ st ≤ 299 →
  let load := loadChatHistory (Responds st (Some data)) in
  let w1 := after load w in
  let w2 := after load w1 in
  completion load w = Done tt
  ∧ chatHistory (chat w1) = reverse (map of_wire data)
  ∧ length (chatHistory (chat w1)) = length data
  ∧ (∀ i : nat, (i < length data)%nat →
       chatHistory (chat w1) !! i
       = of_wire <$> data !! (length data - 1 - i)%nat)
  ∧ (∀ msg, m_id (of_wire msg) = w_id msg
            ∧ m_role (of_wire msg) = w_role msg
            ∧ m_content (of_wire msg) = Some (w_content msg)
            ∧ m_sources (of_wire msg) = Some (default [] (w_sources msg))
            ∧ m_timestamp (of_wire msg) = DateOf (w_timestamp msg))
  ∧ chatHistory (chat w2) = chatHistory (chat w1)
  ∧ messages (chat w2) = messages (chat w1).
Proof.
  intros Ht Htok Hst load w1 w2.
  destruct (loadChatHistory_stores st data tok w Ht Htok Hst) as [H1 Ha1].
  assert (Ht1 : token (auth w1) = Some tok) by (unfold w1, load; congruence).
  destruct (loadChatHistory_stores st data tok w1 Ht1 Htok Hst) as [H2 _].
  fold load in H1, H2. fold w1 in H1. fold w2 in H2.
  split_and!.
  - subst load. open_world w. subst. js_run.
    rewrite (truthy_Some _ Htok); cbn [negb]; js_run.
    by rewrite ok_in_range.
  - exact H1.
  - by rewrite H1, length_reverse, length_map.
  - intros i Hi. rewrite H1, reverse_lookup by (rewrite length_map; lia).
    rewrite length_map, list_lookup_fmap.
    f_equal. f_equal. lia.
  - done.
  - congruence.
  - subst w2 w1 load. clear. open_world w. js_run.
    destruct (truthy _); cbn [negb]; js_run; [| done].
    destruct (ok _); js_run; done.
Qed.

Lemma loadChatHistory_reverses_witness :
  let w := after (setToken (Some "T1")) (initial_world 0 ∅) in
  let data := [wire 3 "newest" "t3"; wire 2 "middle" "t2"; wire 1 "oldest" "t1"] in
  let load := loadChatHistory (Responds 200 (Some data)) in
  chatHistory (chat (after load w))
  = [of_wire (wire 1 "oldest" "t1"); of_wire (wire 2 "middle" "t2");
     of_wire (wire 3 "newest" "t3")]
  ∧ chatHistory (chat (after load (after load w)))
    = chatHistory (chat (after load w)).
Proof.
  intros w data load.
  destruct (loadChatHistory_reverses 200 data "T1" w)
    as (_ & Hrev & _ & _ & _ & Hsame & _); [reflexivity | discriminate | lia |].
  split; [exact Hrev | exact Hsame].
Defined.

(** C10. A history answer with any non-success status, whatever its
    body, changes nothing but the request log: the stored history and
    the rest of the chat state, the session, [localStorage], the router
    and the console are as before, and the call completes without
    throwing.  In particular a history loaded earlier is still there
    after a 401. *)
Theorem loadChatHistory_non_ok (st : Z) (b : option (list WireMessage))
    (w : World) :
  st < 200 ∨ 299 < st →
  let load := loadChatHistory (Responds st b) in
  completion load w = Done tt
  ∧ chat (after load w) = chat w
  ∧ auth (after load w) = auth w
  ∧ localStorage (after load w) = localStorage w
  ∧ pushed (after load w) = pushed w
  ∧ console (after load w) = console w.
Proof.
  intros Hst load. subst load. open_world w. js_run.
  destruct (truthy _); cbn [negb]; js_run; [| done].
  by rewrite ok_out_of_range.
Qed.

Lemma loadChatHistory_non_ok_witness :
  let stale := [of_wire (wire 1 "oldest" "t1")] in
  let w := after (setToken (Some "T1") ;;; setChatHistory stale)
             (initial_world 0 ∅) in
  let load := loadChatHistory (Responds 401 None) in
  chatHistory (chat (after load w)) = stale
  ∧ pushed (after load w) = []
  ∧ console (after load w) = [].
Proof.
  intros stale w load.
  destruct (loadChatHistory_non_ok 401 None w) as (_ & Hc & _ & _ & Hp & He);
    [lia |].
  fold load in Hc, Hp, He. rewrite Hc, Hp, He. by vm_compute.
Defined.

(** *** History windows *)

(** [slice] between bounds that lie inside the list. *)
Lemma slice_in_bounds {A : Type} (l : list A) (lo hi : Z) :
  0 ≤ lo ≤ hi → hi ≤ Z.of_nat (length l) →
  slice l lo hi = take (Z.to_nat (hi - lo)) (drop (Z.to_nat lo) l)
  ∧ Z.of_nat (length (slice l lo hi)) = hi - lo
  ∧ ∀ i : nat, Z.of_nat i < hi - lo →
      slice l lo hi !! i = l !! (Z.to_nat lo + i)%nat
      ∧ is_Some (l !! (Z.to_nat lo + i)%nat).
Proof.
  intros Hlo Hhi. unfold slice.
  destruct (Z.ltb_spec lo 0) as [? | _]; [lia |].
  destruct (Z.ltb_spec hi 0) as [? | _]; [lia |].
  rewrite !Z.min_l by lia. split_and!.
  - done.
  - rewrite length_take, length_drop. lia.
  - intros i Hi. split.
    + rewrite lookup_take_lt by lia. apply lookup_drop.
    + apply lookup_lt_is_Some. lia.
Qed.

(** C2, as the code has it: the radius is the constant 5.  Clicking the
    history entry at index [idx] of a history of length [L], with
    [0 ≤ idx < L], replaces the transcript with the greeting followed by
    the entries at positions [max(0, idx - 5)] to [min(L, idx + 6)]
    (excluded), in order, which is the window of the specification for
    radius 5; there are [min(L, idx + 6) - max(0, idx - 5)] of them,
    every position read lies inside the history, the clicked entry is
    among them, and the handler does not throw. *)
Theorem onClick_window (idx now : Z) (w : World) :
  0 ≤ idx < Z.of_nat (length (chatHistory (chat w))) →
  let history := chatHistory (chat w) in
  let L := Z.of_nat (length history) in
  let lo := Z.max 0 (idx - 5) in
  let hi := Z.min L (idx + 6) in
  let w' := after (onClick idx now) w in
  completion (onClick idx now) w = Done tt
  ∧ messages (chat w') = greeting now :: windowHistory_spec history idx 5
  ∧ Z.of_nat (length (windowHistory_spec history idx 5)) = hi - lo
  ∧ (∀ i : nat, Z.of_nat i < hi - lo →
       messages (chat w') !! S i = history !! (Z.to_nat lo + i)%nat
       ∧ is_Some (history !! (Z.to_nat lo + i)%nat))
  ∧ 0 ≤ lo ≤ idx ∧ idx < hi ≤ L
  ∧ chatHistory (chat w') = history.
Proof.
  intros Hidx history L lo hi w'.
  assert (Hlo : 0 ≤ lo ≤ hi) by (subst lo hi L history; lia).
  assert (Hhi : hi ≤ Z.of_nat (length history)) by (subst hi L history; lia).
  destruct (slice_in_bounds history lo hi Hlo Hhi) as (Hs & Hlen & Hnth).
  assert (Hw : windowHistory_spec history idx 5 = slice history lo hi).
  { rewrite Hs. unfold windowHistory_spec. subst lo hi L.
    by replace (idx + 5 + 1) with (idx + 6) by lia. }
  assert (Hm : messages (chat w') = greeting now :: slice history lo hi).
  { subst w' lo hi L history. clear. open_world w. js_run. done. }
  split_and!; try (subst lo hi L history; lia).
  - clear. open_world w. js_run. done.
  - by rewrite Hm, Hw.
  - by rewrite Hw.
  - intros i Hi. rewrite Hm. cbn [lookup list_lookup]. by apply Hnth.
  - subst w' history. clear. open_world w. js_run. done.
Qed.

Lemma onClick_window_witness :
  let history := [past 0 "t0"; past 1 "t1"; past 2 "t2"] in
  let w := after (setChatHistory history) (initial_world 0 ∅) in
  messages (chat (after (onClick 1 9) w)) = greeting 9 :: history.
Proof.
  intros history w.
  destruct (onClick_window 1 9 w) as (_ & Hm & _); [by vm_compute |].
  rewrite Hm. by vm_compute.
Defined.

(** C2, as stated, fails for a radius other than 5: on a history of
    three entries, anchor 1 and radius 0 select the single entry at
    position 1, while the click on entry 1 loads all three. *)
Lemma windowHistory_radius_counterexample :
  let history := [past 0 "t0"; past 1 "t1"; past 2 "t2"] in
  let w := after (setChatHistory history) (initial_world 0 ∅) in
  let anchor := 1 in
  let radius := 0 in
  0 ≤ anchor < Z.of_nat (length history)
  ∧ 0 ≤ radius
  ∧ windowHistory_spec history anchor radius = [past 1 "t1"]
  ∧ messages (chat (after (onClick anchor 9) w)) = greeting 9 :: history
  ∧ messages (chat (after (onClick anchor 9) w))
    ≠ greeting 9 :: windowHistory_spec history anchor radius
  ∧ Z.of_nat (length (messages (chat (after (onClick anchor 9) w)))) - 1
    ≠ Z.min (Z.of_nat (length history)) (anchor + radius + 1)
      - Z.max 0 (anchor - radius).
Proof.
  intros history w anchor radius. split_and!; by vm_compute.
Qed.

(** * Further properties of the session store *)

Lemma validates_logged (t : string) (st : Z) (l : list Call) :
  200 ≤ st ≤ 299 →
  existsb (validates t)
    (l ++ [{| c_method := "GET"; c_url := api ++ "/auth/profile";
              c_bearer := Some t; c_answer := Some st |}]) = true.
Proof.
  intros Hst. rewrite existsb_app. apply orb_true_iff; right.
  cbn [existsb]. rewrite orb_false_r.
  unfold validates; cbn [c_url c_bearer c_answer].
  rewrite !String.eqb_refl. cbn [andb]. apply andb_true_intro; lia.
Qed.

(** X1. Without a usable persisted access token (the key is missing or
    holds the empty string) the mount effect only clears [loading]: no
    request is issued and the user, the token, [localStorage], the
    router and the console are untouched. *)
Theorem restore_without_token (p : Fetched User) (w : World) :
  truthy (localStorage w !! "access_token") = false →
  let w' := after (restore p) w in
  completion (restore p) w = Done tt
  ∧ loading (auth w') = false
  ∧ user (auth w') = user (auth w)
  ∧ token (auth w') = token (auth w)
  ∧ localStorage w' = localStorage w
  ∧ network w' = network w
  ∧ pushed w' = pushed w
  ∧ console w' = console w.
Proof.
  intros Hs. open_world w. js_run. rewrite Hs. js_run. done.
Qed.

Lemma restore_without_token_witness :
  let w := initial_world 0 {[ "access_token" := "" ]} in
  loading (auth (after (restore Rejects) w)) = false
  ∧ network (after (restore Rejects) w) = []
  ∧ localStorage (after (restore Rejects) w) !! "access_token" = Some "".
Proof.
  intros w.
  destruct (restore_without_token Rejects w) as (_ & Hl & _ & _ & Hs & Hn & _);
    [by vm_compute |].
  rewrite Hs, Hn. split_and!; [exact Hl | done | by vm_compute].
Defined.

(** X2. With a persisted access token that the profile endpoint accepts,
    the mount effect ends with the profile as user, the persisted token
    in memory, [loading] cleared and [localStorage] as it was; the
    session invariant holds and nothing is pushed to the router. *)
Theorem restore_accepted_token (t : string) (st : Z) (u : User) (w : World) :
  localStorage w !! "access_token" = Some t →
  t ≠ "" →
  200 ≤ st ≤ 299 →
  let w' := after (restore (Responds st (Some u))) w in
  auth w' = {| user := Some u; token := Some t; loading := false |}
  ∧ localStorage w' = localStorage w
  ∧ pushed w' = pushed w
  ∧ session_inv w'.
Proof.
  intros Hs Ht Hst. open_world w. js_run.
  rewrite Hs, (truthy_Some _ Ht). js_run.
  rewrite ok_in_range by done. cbn [js_String]. js_run.
  split_and!; try done.
  intros u' _. exists t. split; [done |].
  unfold validated; cbn [network]. by apply validates_logged.
Qed.

Lemma restore_accepted_token_witness :
  let w := initial_world 0 {[ "access_token" := "T0" ]} in
  auth (after (restore (Responds 200 (Some alice))) w)
  = {| user := Some alice; token := Some "T0"; loading := false |}.
Proof.
  intros w.
  destruct (restore_accepted_token "T0" 200 alice w) as (Ha & _);
    [by vm_compute | discriminate | lia |].
  exact Ha.
Defined.

(** X3. When the profile request of the mount effect throws (the fetch
    rejects, or a success answer has an unreadable body), the persisted
    token stays in memory and in [localStorage] without having been
    validated, no user is set, one line goes to the console and
    [loading] is cleared. *)
Theorem restore_unresolved (t : string) (st : Z) (w : World) :
  localStorage w !! "access_token" = Some t →
  t ≠ "" →
  200 ≤ st ≤ 299 →
  ∀ r, r = Rejects ∨ r = Responds st None →
    let w' := after (restore r) w in
    completion (restore r) w = Done tt
    ∧ auth w' = {| user := user (auth w); token := Some t; loading := false |}
    ∧ localStorage w' = localStorage w
    ∧ console w' = (console w ++ ["Failed to fetch profile:"])%list
    ∧ pushed w' = pushed w.
Proof.
  intros Hs Ht Hst r [-> | ->]; open_world w; js_run;
    rewrite Hs, (truthy_Some _ Ht); js_run; [done |].
  rewrite ok_in_range by done. js_run. done.
Qed.

Lemma restore_unresolved_witness :
  let w := initial_world 0 {[ "access_token" := "T0" ]} in
  auth (after (restore Rejects) w)
  = {| user := None; token := Some "T0"; loading := false |}
  ∧ localStorage (after (restore Rejects) w) !! "access_token" = Some "T0".
Proof.
  intros w.
  destruct (restore_unresolved "T0" 200 w) with (r := @Rejects User)
    as (_ & Ha & Hs & _); [by vm_compute | discriminate | lia | by left |].
  rewrite Hs. split; [exact Ha | by vm_compute].
Defined.

(** X4. A login accepted by both endpoints persists the two tokens,
    keeps the access token in memory, sets the user to the profile,
    clears [loading] and then pushes ["/chat"]; the profile request
    follows the login request and carries the fresh access token, and
    the session invariant holds afterwards, whatever the state before. *)
Theorem login_success (email password a r : string) (st st' : Z) (u : User)
    (w : World) :
  200 ≤ st ≤ 299 →
  200 ≤ st' ≤ 299 →
  let attempt :=
    login email password (Responds st (Some (token_pair a r)))
      (Responds st' (Some u)) in
  let w' := after attempt w in
  completion attempt w = Done tt
  ∧ auth w' = {| user := Some u; token := Some a; loading := false |}
  ∧ localStorage w'
    = <["refresh_token" := r]> (<["access_token" := a]> (localStorage w))
  ∧ localStorage w' !! "access_token" = Some a
  ∧ localStorage w' !! "refresh_token" = Some r
  ∧ pushed w' = (pushed w ++ ["/chat"])%list
  ∧ network w'
    = (network w ++ [login_call (Some st); profile_call a (Some st')])%list
  ∧ session_inv w'.
Proof.
  intros Hst Hst' attempt w'. subst w' attempt. open_world w. js_run.
  rewrite !ok_in_range by done. cbn [negb]. js_run.
  cbn [token_pair access_token refresh_token js_String].
  split_and!; try done.
  - rewrite lookup_insert_ne by done. apply lookup_insert_eq.
  - apply lookup_insert_eq.
  - by rewrite <- app_assoc.
  - intros u' _. exists a. split; [done |].
    unfold validated; cbn [network]. by apply validates_logged.
Qed.

Lemma login_success_witness :
  let w := initial_world 0 ∅ in
  let attempt :=
    login "alice@example.org" "pw" (Responds 200 (Some (token_pair "T1" "R1")))
      (Responds 200 (Some alice)) in
  auth (after attempt w)
  = {| user := Some alice; token := Some "T1"; loading := false |}
  ∧ pushed (after attempt w) = ["/chat"].
Proof.
  intros w attempt.
  destruct (login_success "alice@example.org" "pw" "T1" "R1" 200 200 alice w)
    as (_ & Ha & _ & _ & _ & Hp & _); [lia | lia |].
  exact (conj Ha Hp).
Defined.

(** X5. Once the login endpoint has answered with a success status and
    a readable body, [login] completes and pushes ["/chat"] whatever the
    profile request yields.  When the profile endpoint rejects the fresh
    token, the navigation still happens, with no token in memory and
    none in [localStorage]. *)
Theorem login_always_navigates (email password : string) (st : Z)
    (data : AuthBody) (w : World) :
  200 ≤ st ≤ 299 →
  (∀ p,
     let attempt := login email password (Responds st (Some data)) p in
     completion attempt w = Done tt
     ∧ pushed (after attempt w) = (pushed w ++ ["/chat"])%list
     ∧ loading (auth (after attempt w)) = false)
  ∧ (∀ st' b, st' < 200 ∨ 299 < st' →
       let attempt :=
         login email password (Responds st (Some data)) (Responds st' b) in
       token (auth (after attempt w)) = None
       ∧ user (auth (after attempt w)) = user (auth w)
       ∧ localStorage (after attempt w) !! "access_token" = None
       ∧ localStorage (after attempt w) !! "refresh_token" = None).
Proof.
  intros Hst. open_world w. split.
  - intros p. js_run. rewrite !ok_in_range by done. cbn [negb]. js_run.
    destruct p as [|st' [b|]]; js_run; [done | |];
      destruct (ok _); js_run; done.
  - intros st' b Hst'. js_run. rewrite !ok_in_range by done. cbn [negb].
    js_run. rewrite ok_out_of_range by done. js_run.
    split_and!; try done.
    + rewrite lookup_delete_ne by done. apply lookup_delete_eq.
    + apply lookup_delete_eq.
Qed.

Lemma login_always_navigates_witness :
  let w := initial_world 0 ∅ in
  let attempt :=
    login "alice@example.org" "pw" (Responds 200 (Some (token_pair "T1" "R1")))
      (Responds 500 None) in
  pushed (after attempt w) = ["/chat"]
  ∧ token (auth (after attempt w)) = None.
Proof.
  intros w attempt.
  destruct (login_always_navigates "alice@example.org" "pw" 200
              (token_pair "T1" "R1") w) as (Hall & Hrej); [lia |].
  destruct (Hall (Responds 500 None)) as (_ & Hp & _).
  destruct (Hrej 500 None) as (Ht & _); [lia |].
  exact (conj Hp Ht).
Defined.

(** X6. [login] writes nothing unless it can read the body of the
    answer: when the fetch rejects, or the body is unreadable whatever
    the status, it throws the failure itself and leaves the session,
    [localStorage], the router and the console as they were. *)
Theorem login_unreadable (email password : string) (p : Fetched User)
    (w : World) :
  ∀ r e, (r = Rejects ∧ e = FetchFailed)
         ∨ (∃ st, r = Responds st None ∧ e = JsonFailed) →
    let attempt := login email password r p in
    completion attempt w = Thrown e
    ∧ auth (after attempt w) = auth w
    ∧ localStorage (after attempt w) = localStorage w
    ∧ pushed (after attempt w) = pushed w
    ∧ console (after attempt w) = console w
    ∧ length (network (after attempt w)) = S (length (network w)).
Proof.
  intros r e [[-> ->] | (st & -> & ->)]; open_world w; js_run.
  - by rewrite length_app, Nat.add_1_r.
  - destruct (negb (ok _)); js_run; by rewrite length_app, Nat.add_1_r.
Qed.

Lemma login_unreadable_witness :
  let w := initial_world 0 ∅ in
  completion (login "a@example.org" "pw" Rejects Rejects) w = Thrown FetchFailed
  ∧ auth (after (login "a@example.org" "pw" Rejects Rejects) w) = auth w.
Proof.
  intros w.
  destruct (login_unreadable "a@example.org" "pw" Rejects w Rejects FetchFailed)
    as (Hc & Ha & _); [by left |].
  exact (conj Hc Ha).
Defined.

(** X7. [signup] differs from [login] in the endpoint it calls and in
    its fallback message only: for the same answers of the service both
    leave the same session, [localStorage], router and console, issue as
    many requests, and either both complete or both throw. *)
Theorem signup_as_login (email username password : string)
    (r : Fetched AuthBody) (p : Fetched User) (w : World) :
  let up := signup email username password r p in
  let inn := login email password r p in
  auth (after up w) = auth (after inn w)
  ∧ localStorage (after up w) = localStorage (after inn w)
  ∧ pushed (after up w) = pushed (after inn w)
  ∧ console (after up w) = console (after inn w)
  ∧ chat (after up w) = chat (after inn w)
  ∧ length (network (after up w)) = length (network (after inn w))
  ∧ (completion up w = Done tt ↔ completion inn w = Done tt)
  ∧ (∀ e, completion inn w = Thrown e → e ≠ Error "Login failed" →
       completion up w = Thrown e).
Proof.
  intros up inn. subst up inn. open_world w.
  destruct r as [|st [data|]]; js_run.
  - rewrite !length_app. split_and!; done.
  - destruct (ok _); cbn [negb]; js_run.
    + destruct p as [|st' [b|]]; js_run;
        [| destruct (ok _); js_run | destruct (ok _); js_run];
        rewrite !length_app; cbn [length];
        split_and!; try done; intros e; discriminate.
    + rewrite !length_app. split_and!; try done.
      intros e [= <-] Hne. unfold js_or in *.
      destruct (detail data) as [d|]; [destruct (truthy_string d) |];
        try done; by destruct Hne.
  - destruct (negb (ok _)); js_run; rewrite !length_app;
      split_and!; done.
Qed.

(** X8. When the signup request is answered with a non-success status
    and an error body, [signup] throws an [Error] whose message is the
    [detail] of that body, or ["Signup failed"] when there is none, and
    leaves the session and [localStorage] untouched. *)
Theorem signup_failure (email username password : string) (st : Z)
    (error : AuthBody) (p : Fetched User) (w : World) :
  st < 200 ∨ 299 < st →
  let attempt := signup email username password (Responds st (Some error)) p in
  (∀ d, detail error = Some d → d ≠ "" →
     completion attempt w = Thrown (Error d))
  ∧ (detail error = None ∨ detail error = Some "" →
     completion attempt w = Thrown (Error "Signup failed"))
  ∧ auth (after attempt w) = auth w
  ∧ localStorage (after attempt w) = localStorage w
  ∧ pushed (after attempt w) = pushed w.
Proof.
  intros Hst attempt. subst attempt. open_world w. js_run.
  rewrite ok_out_of_range by done. cbn [negb]. js_run.
  split_and!; try done.
  - intros d Hd Hne. unfold js_or. rewrite Hd.
    by rewrite truthy_string_nonempty.
  - intros [Hd | Hd]; unfold js_or; by rewrite Hd.
Qed.

Lemma signup_failure_witness :
  let w := initial_world 0 ∅ in
  let taken := {| detail := Some "Email already registered";
                  access_token := None; refresh_token := None |} in
  let attempt :=
    signup "a@example.org" "alice" "pw" (Responds 400 (Some taken)) Rejects in
  completion attempt w = Thrown (Error "Email already registered")
  ∧ auth (after attempt w) = auth w.
Proof.
  intros w taken attempt.
  destruct (signup_failure "a@example.org" "alice" "pw" 400 taken Rejects w)
    as (Hd & _ & Ha & _); [lia |].
  split; [| exact Ha]. apply Hd; [reflexivity | discriminate].
Defined.

(** X9. [logout] never throws and never issues a request.  From any
    state it leaves no user and no token in memory, removes the two
    token keys and no other key from [localStorage], pushes ["/auth"]
    and establishes the session invariant; [loading] and the chat state
    are untouched. *)
Theorem logout_clears_session (w : World) :
  let w' := after logout w in
  completion logout w = Done tt
  ∧ user (auth w') = None
  ∧ token (auth w') = None
  ∧ loading (auth w') = loading (auth w)
  ∧ localStorage w' !! "access_token" = None
  ∧ localStorage w' !! "refresh_token" = None
  ∧ (∀ k, k ≠ "access_token" → k ≠ "refresh_token" →
       localStorage w' !! k = localStorage w !! k)
  ∧ pushed w' = (pushed w ++ ["/auth"])%list
  ∧ network w' = network w
  ∧ chat w' = chat w
  ∧ session_inv w'.
Proof.
  open_world w. js_run. split_and!; try done.
  - rewrite lookup_delete_ne by done. apply lookup_delete_eq.
  - apply lookup_delete_eq.
  - intros k H1 H2. by rewrite !lookup_delete_ne.
Qed.

(** X10. Logging out after a successful login puts [localStorage] back
    to what it was before the login when it held no token then, and
    leaves the session logged out. *)
Theorem login_then_logout (email password a r : string) (st st' : Z)
    (u : User) (w : World) :
  200 ≤ st ≤ 299 →
  200 ≤ st' ≤ 299 →
  localStorage w !! "access_token" = None →
  localStorage w !! "refresh_token" = None →
  let w' :=
    after logout
      (after (login email password (Responds st (Some (token_pair a r)))
                (Responds st' (Some u))) w) in
  localStorage w' = localStorage w
  ∧ auth w' = {| user := None; token := None; loading := false |}
  ∧ pushed w' = (pushed w ++ ["/chat"; "/auth"])%list.
Proof.
  intros Hst Hst' Ha Hr. open_world w. js_run.
  rewrite !ok_in_range by done. cbn [negb]. js_run.
  cbn [token_pair access_token refresh_token js_String].
  split_and!; try done.
  - rewrite (delete_insert_ne _ "access_token" "refresh_token") by done.
    rewrite delete_insert_eq.
    rewrite delete_insert_eq.
    rewrite (delete_id _ "access_token") by done.
    by rewrite delete_id.
  - by rewrite <- app_assoc.
Qed.

Lemma login_then_logout_witness :
  let w := initial_world 0 {[ "theme" := "dark" ]} in
  let w' :=
    after logout
      (after (login "alice@example.org" "pw"
                (Responds 200 (Some (token_pair "T1" "R1")))
                (Responds 200 (Some alice))) w) in
  localStorage w' = localStorage w
  ∧ auth w' = {| user := None; token := None; loading := false |}.
Proof.
  intros w w'.
  destruct (login_then_logout "alice@example.org" "pw" "T1" "R1" 200 200 alice w)
    as (Hs & Ha & _); [lia | lia | by vm_compute | by vm_compute |].
  exact (conj Hs Ha).
Defined.

(** *** Invariants of the session store over any sequence of operations *)

(** Follows every path of a handler. *)
Ltac js_paths :=
  repeat (js_run;
    match goal with
    | |- context [match ?r with Rejects => _ | Responds _ _ => _ end] =>
        destruct r as [|? [?|]]
    | |- context [if ?c then _ else _] => destruct c eqn:?
    end).

Lemma run_snoc (ops : list Op) (o : Op) (w : World) :
  run (ops ++ [o]) w = after (run_op o) (run ops w).
Proof. unfold run. by rewrite fold_left_app. Qed.

Lemma run_op_token_mirrors_storage (o : Op) (w : World) :
  token_mirrors_storage w → token_mirrors_storage (after (run_op o) w).
Proof.
  unfold token_mirrors_storage. intros H. open_world w.
  destruct o; js_paths; try done.
  all: try (intros t [= Ht]; rewrite Ht; cbn [js_String];
            rewrite lookup_insert_ne by done; apply lookup_insert_eq).
Qed.

(** X11. Whatever sequence of session operations runs and whatever the
    service answers, a token held in memory is the access token held in
    [localStorage], provided this was so at the start (as it is when
    the provider mounts, with no token in memory). *)
Theorem token_mirrors_storage_run (ops : list Op) (w : World) :
  token_mirrors_storage w → token_mirrors_storage (run ops w).
Proof.
  intros H. induction ops as [|o ops IH] using rev_ind; [done |].
  rewrite run_snoc. by apply run_op_token_mirrors_storage.
Qed.

Lemma token_mirrors_storage_run_witness :
  token_mirrors_storage
    (run [OpRestore Rejects;
          OpLogin "alice@example.org" "pw"
            (Responds 200 (Some (token_pair "T1" "R1"))) Rejects]
       (initial_world 0 {[ "access_token" := "T0" ]})).
Proof.
  apply token_mirrors_storage_run. intros t. by vm_compute.
Defined.

Lemma run_op_loading (o : Op) (w : World) :
  loading (auth w) = false → loading (auth (after (run_op o) w)) = false.
Proof.
  intros H. open_world w. subst. destruct o; js_paths; done.
Qed.

(** X12. No session operation sets [loading] back to [true]: once the
    flag is cleared it stays cleared through every sequence of
    operations, so the guard's waiting screen never comes back. *)
Theorem loading_stays_cleared (ops : list Op) (w : World) :
  loading (auth w) = false → loading (auth (run ops w)) = false.
Proof.
  intros H. induction ops as [|o ops IH] using rev_ind; [done |].
  rewrite run_snoc. by apply run_op_loading.
Qed.

Lemma loading_stays_cleared_witness :
  loading (auth (run [OpLogout; OpLogin "a@example.org" "pw" Rejects Rejects]
                   (after (restore Rejects) (initial_world 0 ∅)))) = false.
Proof.
  apply loading_stays_cleared. by vm_compute.
Defined.

Lemma validated_mono (t : string) (l l' : list Call) :
  existsb (validates t) l = true → existsb (validates t) (l ++ l') = true.
Proof. intros H. rewrite existsb_app, H. done. Qed.

Lemma run_op_user_validated (o : Op) (w : World) :
  (is_Some (user (auth w)) → some_profile_accepted w) →
  is_Some (user (auth (after (run_op o) w))) →
  some_profile_accepted (after (run_op o) w).
Proof.
  unfold some_profile_accepted, validated. intros H. open_world w.
  destruct o; js_paths;
    try (intros Hu; by destruct Hu);
    try (intros Hu; destruct (H Hu) as [t Ht]; exists t;
         rewrite <- ?app_assoc; by apply validated_mono);
    try (intros Hu; by destruct (H Hu) as [t Ht]; exists t).
  all: intros _; eexists;
    rewrite ?app_assoc; apply validates_logged;
    match goal with
    | Hok : ok _ = true |- _ =>
        unfold ok in Hok; cbn [status] in Hok;
        apply andb_true_iff in Hok; lia
    end.
Qed.

(** X13. In every state reached from one without a user, a user is
    present only if some profile request was answered with a success
    status: the profile is set by [fetchProfile] on such an answer and
    by nothing else. *)
Theorem user_only_after_accepted_profile (ops : list Op) (w : World) :
  user (auth w) = None →
  is_Some (user (auth (run ops w))) → some_profile_accepted (run ops w).
Proof.
  intros Hu. induction ops as [|o ops IH] using rev_ind.
  - cbn. rewrite Hu. by intros [? ?].
  - rewrite run_snoc. by apply run_op_user_validated.
Qed.

Lemma user_only_after_accepted_profile_witness :
  some_profile_accepted
    (run [OpRestore Rejects;
          OpLogin "alice@example.org" "pw"
            (Responds 200 (Some (token_pair "T1" "R1")))
            (Responds 200 (Some alice));
          OpLogin "alice@example.org" "pw"
            (Responds 200 (Some (token_pair "T2" "R2")))
            (Responds 401 None)]
       (initial_world 0 ∅)).
Proof.
  apply user_only_after_accepted_profile; [by vm_compute |].
  exists alice. by vm_compute.
Defined.

(** * Further properties of the conversation manager *)

(** X14. [send] does nothing at all when the input is blank or when
    there is no token: the transcript, the input, the loading flag, the
    router and the request log are as before. *)
Theorem send_noop (t_sent t_reply : Z) (r : Fetched ChatBody)
    (h : Fetched (list WireMessage)) (w : World) :
  trim (input (chat w)) = "" ∨ truthy (token (auth w)) = false →
  completion (send t_sent t_reply r h) w = Done tt
  ∧ after (send t_sent t_reply r h) w = w.
Proof.
  intros H. open_world w. js_run.
  destruct H as [-> | ->]; [| rewrite orb_true_r]; done.
Qed.

Lemma send_noop_witness :
  let blank := bytes [194; 160; 32; 227; 128; 128; 9; 239; 187; 191]%N in
  let w := after (setInput blank ;;; setToken (Some "T1"))
             (initial_world 0 ∅) in
  after (send 1 2 Rejects Rejects) w = w.
Proof.
  intros blank w.
  destruct (send_noop 1 2 Rejects Rejects w) as [_ H]; [by left |].
  exact H.
Defined.

(** X15. With a non-blank input and a token, a chat answer of any
    status other than 401 with a readable body makes [send] append the
    user's message and then an assistant entry holding the [answer] and
    [sources] of the body, clear the input and the loading flag, and
    reload the history with the same token: the history stored
    afterwards is the one [loadChatHistory] alone would store. *)
Theorem send_reply (t_sent t_reply : Z) (st : Z) (data : ChatBody)
    (h : Fetched (list WireMessage)) (text tok : string) (w : World) :
  input (chat w) = text →
  trim text ≠ "" →
  token (auth w) = Some tok →
  tok ≠ "" →
  st ≠ 401 →
  let call := send t_sent t_reply (Responds st (Some data)) h in
  completion call w = Done tt
  ∧ messages (chat (after call w))
    = (messages (chat w)
       ++ [user_message text t_sent;
           {| m_id := None; m_role := assistant_role;
              m_content := answer data; m_sources := sources data;
              m_timestamp := DateNow t_reply |}])%list
  ∧ input (chat (after call w)) = ""
  ∧ chat_loading (chat (after call w)) = false
  ∧ network (after call w)
    = (network w
       ++ [chat_call tok (Some st); history_call tok (answered h)])%list
  ∧ chatHistory (chat (after call w))
    = chatHistory (chat (after (loadChatHistory h) w))
  ∧ pushed (after call w) = pushed w.
Proof.
  intros Hin Htxt Ht Htok Hst call. subst call. open_world w. subst.
  send_enters Htxt Htok.
  apply Z.eqb_neq in Hst. rewrite Hst. js_run.
  rewrite ?(truthy_Some _ Htok). cbn [negb]. js_run.
  destruct h as [|st' [d|]]; js_run;
    [| destruct (ok _); js_run | destruct (ok _); js_run];
    rewrite <- !app_assoc; done.
Qed.

Lemma send_reply_witness :
  let w := after (setInput "hello" ;;; setToken (Some "T1") ;;; setUser (Some alice))
             (initial_world 0 ∅) in
  let reply := {| answer := Some "hi"; sources := Some ["https://a/b.pdf"] |} in
  let call := send 1 2 (Responds 200 (Some reply)) (Responds 200 (Some [])) in
  messages (chat (after call w))
  = [greeting 0; user_message "hello" 1;
     {| m_id := None; m_role := assistant_role; m_content := Some "hi";
        m_sources := Some ["https://a/b.pdf"]; m_timestamp := DateNow 2 |}]
  ∧ input (chat (after call w)) = "".
Proof.
  intros w reply call.
  destruct (send_reply 1 2 200 reply (Responds 200 (Some [])) "hello" "T1" w)
    as (_ & Hm & Hi & _);
    [reflexivity | discriminate | reflexivity | discriminate | lia |].
  exact (conj Hm Hi).
Defined.

(** X16. Whatever the service does, a [send] that passes its guard
    keeps the earlier transcript, puts the user's message right after
    it, adds at most one entry after that, an assistant entry, and
    clears the input; the chat request is the first request it
    issues. *)
Theorem send_keeps_user_message (t_sent t_reply : Z) (r : Fetched ChatBody)
    (h : Fetched (list WireMessage)) (text tok : string) (w : World) :
  input (chat w) = text →
  trim text ≠ "" →
  token (auth w) = Some tok →
  tok ≠ "" →
  let w' := after (send t_sent t_reply r h) w in
  (∃ tail,
     messages (chat w')
     = (messages (chat w) ++ user_message text t_sent :: tail)%list
     ∧ (length tail ≤ 1)%nat
     ∧ Forall (λ m, m_role m = assistant_role) tail)
  ∧ input (chat w') = ""
  ∧ (∃ rest,
       network w' = (network w ++ chat_call tok (answered r) :: rest)%list).
Proof.
  intros Hin Htxt Ht Htok w'. subst w'. open_world w. subst.
  send_enters Htxt Htok.
  assert (Hfin : ∀ (old tail : list Message) (now : list Message),
    now = (old ++ user_message text t_sent :: tail)%list →
    (length tail ≤ 1)%nat →
    Forall (λ m, m_role m = assistant_role) tail →
    ∃ tail0, now = (old ++ user_message text t_sent :: tail0)%list
             ∧ (length tail0 ≤ 1)%nat
             ∧ Forall (λ m, m_role m = assistant_role) tail0) by eauto.
  destruct r as [|st [d|]]; js_run.
  - split_and!; [| done | eexists []; by rewrite <- ?app_assoc].
    eapply (Hfin _ [_]); [by rewrite <- app_assoc | cbn; lia |].
    by repeat constructor.
  - destruct (st =? 401); js_run.
    + split_and!; [| done | eexists []; by rewrite <- ?app_assoc].
      eapply (Hfin _ []); [done | cbn; lia | constructor].
    + rewrite ?(truthy_Some _ Htok); cbn [negb]; js_run.
      destruct h as [|st' [d'|]]; js_run;
        [| destruct (ok _); js_run | destruct (ok _); js_run];
        (split_and!; [| done | eexists [_]; by rewrite <- app_assoc]);
        (eapply (Hfin _ [_]); [by rewrite <- app_assoc | cbn; lia |]);
        by repeat constructor.
  - destruct (st =? 401); js_run.
    + split_and!; [| done | eexists []; by rewrite <- ?app_assoc].
      eapply (Hfin _ []); [done | cbn; lia | constructor].
    + split_and!; [| done | eexists []; by rewrite <- ?app_assoc].
      eapply (Hfin _ [_]); [by rewrite <- app_assoc | cbn; lia |].
      by repeat constructor.
Qed.

Lemma send_keeps_user_message_witness :
  let w := after (setInput "hello" ;;; setToken (Some "T1"))
             (initial_world 0 ∅) in
  input (chat (after (send 1 2 Rejects Rejects) w)) = "".
Proof.
  intros w.
  destruct (send_keeps_user_message 1 2 Rejects Rejects "hello" "T1" w)
    as (_ & Hi & _); [reflexivity | discriminate | reflexivity | discriminate |].
  exact Hi.
Defined.

Lemma run_chat_snoc (ops : list ChatOp) (o : ChatOp) (w : World) :
  run_chat (ops ++ [o]) w = after (run_chat_op o) (run_chat ops w).
Proof. unfold run_chat. by rewrite fold_left_app. Qed.

Lemma run_chat_op_greeted (o : ChatOp) (w : World) :
  greeted w → greeted (after (run_chat_op o) w).
Proof.
  unfold greeted. intros [now H]. open_world w.
  destruct messages0 as [|m ms]; [discriminate |].
  injection H as ->.
  destruct o; cbv [run_chat_op ChatPage_effect]; js_paths; simpl; eauto.
Qed.

(** X17. The transcript keeps its greeting: from any state whose
    transcript starts with a greeting, with or without a user and a
    token, every sequence of typing, sending, page effects, toggles of
    the history panel and clicks on history entries ends in a state
    whose transcript starts with a greeting, whatever the service
    answers. *)
Theorem transcript_starts_with_greeting (ops : list ChatOp) (w : World) :
  greeted w → greeted (run_chat ops w).
Proof.
  intros H. induction ops as [|o ops IH] using rev_ind; [done |].
  rewrite run_chat_snoc. by apply run_chat_op_greeted.
Qed.

Lemma transcript_starts_with_greeting_witness :
  let w := after (setInput "hello" ;;; setToken (Some "T1") ;;; setUser (Some alice))
             (initial_world 0 ∅) in
  let reply := {| answer := Some "hi"; sources := None |} in
  let history := [wire 2 "hi" "t2"; wire 1 "hello" "t1"] in
  let w' :=
    run_chat [ChSend 1 2 (Responds 200 (Some reply)) (Responds 200 (Some history));
              ChClick 1 3;
              ChType "again";
              ChSend 4 5 Rejects Rejects] w in
  greeted w'
  ∧ length (messages (chat w')) = 5%nat
  ∧ length (network w') = 3%nat.
Proof.
  intros w reply history w'. split_and!; [| by vm_compute | by vm_compute].
  apply transcript_starts_with_greeting. by exists 0.
Defined.

(** X18. Clicking the history entry at a valid index loads between 1
    and 11 history entries after the greeting, exactly 11 when at least
    five entries lie on each side of the clicked one; the clicked entry
    is among them, at position [idx - max(0, idx - 5)] of the window,
    and the history panel is closed. *)
Theorem onClick_window_size (idx now : Z) (w : World) :
  0 ≤ idx < Z.of_nat (length (chatHistory (chat w))) →
  let history := chatHistory (chat w) in
  let L := Z.of_nat (length history) in
  let w' := after (onClick idx now) w in
  let n := Z.of_nat (length (messages (chat w'))) - 1 in
  1 ≤ n ≤ 11
  ∧ n ≤ L
  ∧ (5 ≤ idx ≤ L - 6 → n = 11)
  ∧ (L ≤ 6 → n = L)
  ∧ messages (chat w') !! S (Z.to_nat (idx - Z.max 0 (idx - 5)))
    = history !! Z.to_nat idx
  ∧ is_Some (history !! Z.to_nat idx)
  ∧ showHistory (chat w') = false.
Proof.
  intros Hidx history L w' n.
  set (lo := Z.max 0 (idx - 5)). set (hi := Z.min L (idx + 6)).
  assert (Hlo : 0 ≤ lo ≤ hi) by (subst lo hi L history; lia).
  assert (Hhi : hi ≤ Z.of_nat (length history)) by (subst hi L history; lia).
  destruct (slice_in_bounds history lo hi Hlo Hhi) as (_ & Hlen & Hnth).
  assert (Hm : messages (chat w') = greeting now :: slice history lo hi).
  { subst w' lo hi L history. clear. open_world w. js_run. done. }
  assert (Hn : n = hi - lo).
  { subst n. rewrite Hm. cbn [length]. lia. }
  split_and!; try (subst lo hi L history; lia).
  - rewrite Hm.
    destruct (Hnth (Z.to_nat (idx - lo))) as [Hx _];
      [subst lo hi L history; lia |].
    etrans; [exact Hx |]. f_equal. subst lo. lia.
  - apply lookup_lt_is_Some. subst history. lia.
  - subst w'. clear. open_world w. js_run. done.
Qed.

Lemma onClick_window_size_witness :
  let history := [past 0 "t0"; past 1 "t1"; past 2 "t2"] in
  let w := after (setChatHistory history) (initial_world 0 ∅) in
  messages (chat (after (onClick 2 9) w)) !! 3%nat = Some (past 2 "t2").
Proof.
  intros history w.
  destruct (onClick_window_size 2 9 w) as (_ & _ & _ & _ & H & _);
    [by vm_compute |].
  exact H.
Defined.

(** X19. Without a usable token in memory [loadChatHistory] does
    nothing: no request is issued and the world is as before. *)
Theorem loadChatHistory_without_token (h : Fetched (list WireMessage))
    (w : World) :
  truthy (token (auth w)) = false →
  completion (loadChatHistory h) w = Done tt
  ∧ after (loadChatHistory h) w = w.
Proof.
  intros H. open_world w. js_run. cbn [token] in H. rewrite H. done.
Qed.

Lemma loadChatHistory_without_token_witness :
  after (loadChatHistory (Responds 200 (Some []))) (initial_world 0 ∅)
  = initial_world 0 ∅.
Proof.
  destruct (loadChatHistory_without_token (Responds 200 (Some []))
              (initial_world 0 ∅)) as [_ H]; [reflexivity |].
  exact H.
Defined.

(** X20. When the history request throws (the fetch rejects, or a
    success answer has an unreadable body), [loadChatHistory] swallows
    the failure: it completes, writes one line to the console and keeps
    the stored history, the transcript, the session and the router as
    they were. *)
Theorem loadChatHistory_swallows (st : Z) (tok : string) (w : World) :
  token (auth w) = Some tok →
  tok ≠ "" →
  200 ≤ st ≤ 299 →
  ∀ h, h = Rejects ∨ h = Responds st None →
    let w' := after (loadChatHistory h) w in
    completion (loadChatHistory h) w = Done tt
    ∧ chat w' = chat w
    ∧ auth w' = auth w
    ∧ pushed w' = pushed w
    ∧ console w' = (console w ++ ["Failed to load history:"])%list
    ∧ network w' = (network w ++ [history_call tok (answered h)])%list.
Proof.
  intros Ht Htok Hst h [-> | ->]; open_world w; subst; js_run;
    rewrite (truthy_Some _ Htok); cbn [negb]; js_run; [done |].
  rewrite ok_in_range by done. js_run. done.
Qed.

Lemma loadChatHistory_swallows_witness :
  let w := after (setToken (Some "T1")) (initial_world 0 ∅) in
  console (after (loadChatHistory Rejects) w) = ["Failed to load history:"]
  ∧ chat (after (loadChatHistory Rejects) w) = chat w.
Proof.
  intros w.
  destruct (loadChatHistory_swallows 200 "T1" w) with (h := @Rejects (list WireMessage))
    as (_ & Hc & _ & _ & He & _); [reflexivity | discriminate | lia | by left |].
  split; [by rewrite He | exact Hc].
Defined.

(** X21. The page effect redirects to ["/auth"] without issuing any
    request exactly when there is no user or no usable token; with both
    it issues one history request carrying the token and does not
    redirect.  After [logout] it always redirects. *)
Theorem ChatPage_effect_guard (h : Fetched (list WireMessage)) (w : World) :
  (user (auth w) = None ∨ truthy (token (auth w)) = false →
     pushed (after (ChatPage_effect h) w) = (pushed w ++ ["/auth"])%list
     ∧ network (after (ChatPage_effect h) w) = network w
     ∧ chat (after (ChatPage_effect h) w) = chat w)
  ∧ (∀ u tok, user (auth w) = Some u → token (auth w) = Some tok → tok ≠ "" →
       pushed (after (ChatPage_effect h) w) = pushed w
       ∧ network (after (ChatPage_effect h) w)
         = (network w ++ [history_call tok (answered h)])%list)
  ∧ pushed (after (ChatPage_effect h) (after logout w))
    = (pushed w ++ ["/auth"; "/auth"])%list
  ∧ network (after (ChatPage_effect h) (after logout w)) = network w
  ∧ completion (ChatPage_effect h) w = Done tt.
Proof.
  open_world w. unfold ChatPage_effect. split_and!.
  - intros [-> | Ht]; js_run; [done |].
    rewrite Ht. cbn [negb]. rewrite orb_true_r. done.
  - intros u tok -> -> Htok. js_run.
    rewrite (bool_decide_eq_true_2 (is_Some (Some u))) by eauto.
    rewrite (truthy_Some _ Htok). cbn [negb orb]. js_run.
    rewrite ?(truthy_Some _ Htok). cbn [negb]. js_run.
    destruct h as [|st [d|]]; js_run; [done | |];
      destruct (ok _); js_run; done.
  - js_run. cbn [truthy negb]. rewrite orb_true_r. js_run.
    by rewrite <- app_assoc.
  - js_run. cbn [truthy negb]. rewrite orb_true_r. js_run. done.
  - js_run. destruct (_ || _); js_run; [done |].
    destruct (negb _); js_run; [done |].
    destruct h as [|st [d|]]; js_run; [done | |];
      destruct (ok _); js_run; done.
Qed.

Lemma ChatPage_effect_guard_witness :
  let w := after (setToken (Some "T1") ;;; setUser (Some alice))
             (initial_world 0 ∅) in
  network (after (ChatPage_effect (Responds 200 (Some []))) w)
  = [history_call "T1" (Some 200)]
  ∧ pushed (after (ChatPage_effect Rejects) (initial_world 0 ∅)) = ["/auth"].
Proof.
  intros w.
  destruct (ChatPage_effect_guard (Responds 200 (Some [])) w)
    as (_ & Hin & _).
  destruct (Hin alice "T1") as [_ Hn]; [reflexivity | reflexivity | discriminate |].
  destruct (ChatPage_effect_guard Rejects (initial_world 0 ∅)) as (Hout & _).
  destruct Hout as (Hp & _); [by left |].
  split; [by rewrite Hn | by rewrite Hp].
Defined.

(** *** Relative times *)

(** X22. For a clock and a message time in the range of [Date] whose
    difference is below 2^53 milliseconds, [formatTimestamp] shows the
    elapsed time in the coarsest unit that is at least one: below one
    minute (and for a time in the future) it shows ["Just now"]; from
    one minute it shows whole minutes, 1 to 59; from one hour whole
    hours, 1 to 23; from one day whole days.  The count is the elapsed
    milliseconds divided, rounding down, by the length of the unit.  An
    invalid date shows as ["Just now"]. *)
Theorem formatTimestamp_units (parse : string → option Z) (now : Z)
    (date : Date) :
  Z.abs now ≤ max_time →
  (getTime parse date = None →
     formatTimestamp parse now date = Some "Just now")
  ∧ (∀ t, getTime parse date = Some t →
       Z.abs t ≤ max_time →
       Z.abs (now - t) < 2 ^ 53 →
       let e := now - t in
       (e < 60000 → formatTimestamp parse now date = Some "Just now")
       ∧ (60000 ≤ e < 3600000 →
            formatTimestamp parse now date
            = Some (pretty (e / 60000) ++ "m ago")%string
            ∧ 1 ≤ e / 60000 ≤ 59)
       ∧ (3600000 ≤ e < 86400000 →
            formatTimestamp parse now date
            = Some (pretty (e / 3600000) ++ "h ago")%string
            ∧ 1 ≤ e / 3600000 ≤ 23)
       ∧ (86400000 ≤ e →
            formatTimestamp parse now date
            = Some (pretty (e / 86400000) ++ "d ago")%string
            ∧ 1 ≤ e / 86400000)).
Proof.
  intros Hnow.
  assert (Hn : time_value (Some now) = true)
    by (cbn [time_value]; by apply Z.leb_le).
  split.
  - intros H. unfold formatTimestamp. rewrite H, Hn. done.
  - intros t H Ht Hdiff e. unfold formatTimestamp. rewrite H, Hn.
    cbn [fmap option_fmap option_map floor_div js_positive js_number
         time_value exactly_held].
    fold e.
    assert (Hx : (Z.abs t <=? max_time) = true) by by apply Z.leb_le.
    assert (Hy : (Z.abs e <? 2 ^ 53) = true) by by apply Z.ltb_lt.
    rewrite Hx, Hy. cbn [andb negb].
    assert (Hm : e / 1000 / 60 = e / 60000)
      by (rewrite Z.div_div by lia; done).
    assert (Hh : e / 1000 / 60 / 60 = e / 3600000)
      by (rewrite Hm, Z.div_div by lia; done).
    assert (Hd : e / 1000 / 60 / 60 / 24 = e / 86400000)
      by (rewrite Hh, Z.div_div by lia; done).
    rewrite Hd, Hh, Hm.
    clearbody e. clear Hd Hh Hm Hdiff Hy.
    split_and!; intros He;
      destruct (Z.ltb_spec 0 (e / 86400000));
      destruct (Z.ltb_spec 0 (e / 3600000));
      destruct (Z.ltb_spec 0 (e / 60000));
      try (exfalso; Z.to_euclidean_division_equations; lia);
      (split; [done | Z.to_euclidean_division_equations; lia]) || done.
Qed.

(** Beyond the exact range the model gives no answer: the two ends of
    the range of [Date] are more than 2^53 milliseconds apart. *)
Example formatTimestamp_beyond_exact_range :
  formatTimestamp (λ _, None) 8640000000000000 (DateNow (-8639999999999999))
  = None.
Proof. by vm_compute. Qed.

Lemma formatTimestamp_units_witness :
  formatTimestamp (λ _, None) 1700090000000 (DateNow 1700000000000)
  = Some "1d ago"
  ∧ formatTimestamp (λ _, None) 1700000000000 (DateOf "not a date")
    = Some "Just now".
Proof.
  destruct (formatTimestamp_units (λ _, None) 1700090000000
              (DateNow 1700000000000)) as [_ H]; [by vm_compute |].
  destruct (H 1700000000000 eq_refl) as (_ & _ & _ & Hd);
    [by vm_compute | by vm_compute |].
  destruct (Hd ltac:(lia)) as [-> _].
  destruct (formatTimestamp_units (λ _, None) 1700000000000
              (DateOf "not a date")) as [Hn _]; [by vm_compute |].
  split; [by vm_compute | by apply Hn].
Defined.

(** * The sign-in form *)

Lemma js_or_nonempty (v : option string) (d : string) :
  d ≠ "" → js_or v d ≠ "".
Proof.
  intros Hd. unfold js_or. destruct v as [s|]; [| done].
  unfold truthy_string. destruct (String.eqb_spec s ""); done.
Qed.

(** X23. Submitting the sign-up form with a blank username issues no
    request: the form shows ["Username is required"], is not loading,
    and the world is untouched. *)
Theorem handleSubmit_blank_username (native : Exn → string)
    (r : Fetched AuthBody) (p : Fetched User) (f : AuthForm) (w : World) :
  isSignUp f = true →
  trim (form_username f) = "" →
  form_error (handleSubmit native r p f w).1 = "Username is required"
  ∧ form_loading (handleSubmit native r p f w).1 = false
  ∧ (handleSubmit native r p f w).2 = w.
Proof.
  intros Hs Hu. unfold handleSubmit. rewrite Hs, Hu. done.
Qed.

Lemma handleSubmit_blank_username_witness :
  let f := {| isSignUp := true; form_email := "a@example.org";
              form_username := bytes [32; 194; 160]%N; form_password := "pw";
              form_error := ""; form_loading := false |} in
  (handleSubmit (λ _, "Failed to fetch") Rejects Rejects f (initial_world 0 ∅)).2
  = initial_world 0 ∅.
Proof.
  intros f.
  destruct (handleSubmit_blank_username (λ _, "Failed to fetch") Rejects Rejects
              f (initial_world 0 ∅)) as (_ & _ & H); [done | done |].
  exact H.
Defined.

(** X24. A submission ends in one of two ways, whatever the form holds
    and whatever the service does.  Either it succeeded: the form stays
    loading with no error and ["/chat"] has been pushed.  Or it failed:
    the form is not loading, shows a non-empty error, and the router,
    the session and [localStorage] are as before. *)
Theorem handleSubmit_outcome (native : Exn → string) (r : Fetched AuthBody)
    (p : Fetched User) (f : AuthForm) (w : World) :
  let f' := (handleSubmit native r p f w).1 in
  let w' := (handleSubmit native r p f w).2 in
  (form_loading f' = true ∧ form_error f' = ""
   ∧ pushed w' = (pushed w ++ ["/chat"])%list)
  ∨ (form_loading f' = false ∧ form_error f' ≠ ""
     ∧ pushed w' = pushed w ∧ auth w' = auth w
     ∧ localStorage w' = localStorage w).
Proof.
  assert (Hne : ∀ e, js_or (Some (message_of native e)) "Authentication failed" ≠ "")
    by (intros e; by apply js_or_nonempty).
  open_world w. unfold handleSubmit.
  destruct (isSignUp f);
    [destruct (negb (truthy_string (trim (form_username f))));
       [right; by split_and! |] |];
    js_paths; cbn [fst snd form_loading form_error pushed auth localStorage];
    first [ left; by split_and! | right; split_and!; done ].
Qed.

(** X25. In sign-in mode a non-success answer with a non-empty
    [detail] puts exactly that text in the form's error, whatever the
    browser's own error texts are. *)
Theorem handleSubmit_shows_detail (native : Exn → string) (st : Z)
    (error : AuthBody) (d : string) (p : Fetched User) (f : AuthForm)
    (w : World) :
  isSignUp f = false →
  st < 200 ∨ 299 < st →
  detail error = Some d →
  d ≠ "" →
  form_error (handleSubmit native (Responds st (Some error)) p f w).1 = d
  ∧ form_loading (handleSubmit native (Responds st (Some error)) p f w).1
    = false.
Proof.
  intros Hs Hst Hd Hne. open_world w. unfold handleSubmit. rewrite Hs.
  js_run. rewrite ok_out_of_range by done. cbn [negb]. js_run.
  cbn [fst form_error form_loading message_of]. split; [| done].
  unfold js_or at 2. rewrite Hd, (truthy_string_nonempty _ Hne).
  unfold js_or. by rewrite (truthy_string_nonempty _ Hne).
Qed.

Lemma handleSubmit_shows_detail_witness :
  let f := {| isSignUp := false; form_email := "a@example.org";
              form_username := ""; form_password := "nope";
              form_error := ""; form_loading := false |} in
  let wrong := {| detail := Some "Incorrect email or password";
                  access_token := None; refresh_token := None |} in
  form_error
    (handleSubmit (λ _, "Failed to fetch") (Responds 401 (Some wrong)) Rejects
       f (initial_world 0 ∅)).1
  = "Incorrect email or password".
Proof.
  intros f wrong.
  destruct (handleSubmit_shows_detail (λ _, "Failed to fetch") 401 wrong
              "Incorrect email or password" Rejects f (initial_world 0 ∅))
    as [H _]; [done | lia | done | done |].
  exact H.
Defined.

(** * The profile page *)

(** X26. Clearing the history does nothing when the dialog is declined.
    Once confirmed, it issues one DELETE request that carries the access
    token persisted in [localStorage] (the text ["null"] when there is
    none, whatever token is in memory), always ends with [clearing]
    reset, and leaves the session, [localStorage] and the chat state
    alone.  It reports success on a success status and failure when the
    fetch rejects; a non-success status is reported in no way. *)
Theorem handleClearHistory_outcome (r : Fetched unit) (s : ProfileState)
    (w : World) :
  handleClearHistory false r s w = (s, w)
  ∧ (let s' := (handleClearHistory true r s w).1 in
     let w' := (handleClearHistory true r s w).2 in
     clearing s' = false
     ∧ network w'
       = (network w
          ++ [delete_call (default "null" (localStorage w !! "access_token"))
                (answered r)])%list
     ∧ auth w' = auth w
     ∧ localStorage w' = localStorage w
     ∧ chat w' = chat w
     ∧ pushed w' = pushed w
     ∧ (r = Rejects →
          alerts s' = (alerts s ++ ["Failed to clear chat history"])%list)
     ∧ (∀ st b, r = Responds st b → 200 ≤ st ≤ 299 →
          alerts s'
          = (alerts s ++ ["Chat history cleared successfully"])%list)
     ∧ (∀ st b, r = Responds st b → st < 200 ∨ 299 < st →
          alerts s' = alerts s)).
Proof.
  split; [done |]. open_world w. unfold handleClearHistory. cbn [negb].
  destruct r as [|st b]; js_run.
  - split_and!; done.
  - destruct (ok _) eqn:Hok; cbn [fst snd clearing alerts];
      split_and!; try done;
      intros st' b' [= <- <-] Hst;
      unfold ok in Hok; cbn [status] in Hok;
      first [apply andb_true_iff in Hok | apply andb_false_iff in Hok]; lia.
Qed.

Lemma handleClearHistory_outcome_witness :
  let s := {| clearing := false; alerts := [] |} in
  let w := after (setToken (Some "T1")) (initial_world 0 ∅) in
  alerts (handleClearHistory true (Responds 401 None) s w).1 = []
  ∧ network (handleClearHistory true (Responds 401 None) s w).2
    = [delete_call "null" (Some 401)].
Proof.
  intros s w.
  destruct (handleClearHistory_outcome (Responds 401 None) s w)
    as (_ & _ & Hn & _ & _ & _ & _ & _ & _ & Hsilent).
  split; [apply (Hsilent 401 None eq_refl); lia | by rewrite Hn].
Defined.

(** * The guard along the life of a session *)

(** X27. At startup with no usable persisted token the guard first
    shows the waiting screen and pushes nothing; once the mount effect
    has run it redirects every protected path to ["/auth"], rendering
    nothing, and renders the sign-in view on ["/auth"] without a
    redirect. *)
Theorem guard_at_startup (pathname : string) (p : Fetched User) (w : World) :
  auth w = initial_auth →
  truthy (localStorage w !! "access_token") = false →
  let w1 := after (restore p) w in
  completion (ProtectedWrapper pathname) w = Done LoadingScreen
  ∧ pushed (after (ProtectedWrapper pathname) w) = pushed w
  ∧ (pathname ≠ "/auth" →
       completion (ProtectedWrapper pathname) w1 = Done Nothing
       ∧ pushed (after (ProtectedWrapper pathname) w1)
         = (pushed w ++ ["/auth"])%list)
  ∧ completion (ProtectedWrapper "/auth") w1 = Done Children
  ∧ pushed (after (ProtectedWrapper "/auth") w1) = pushed w.
Proof.
  intros Ha Hs. open_world w. injection Ha as -> -> ->.
  split_and!; try (js_run; rewrite ?Hs; js_run; done).
  intros Hne. js_run. rewrite Hs. js_run.
  unfold guard_redirect, guard_render. rewrite includes_publicPaths.
  rewrite (bool_decide_eq_false_2 (pathname = "/auth")) by done.
  js_run. done.
Qed.

Lemma guard_at_startup_witness :
  let w := initial_world 0 ∅ in
  completion (ProtectedWrapper "/chat") (after (restore Rejects) w) = Done Nothing
  ∧ pushed (after (ProtectedWrapper "/chat") (after (restore Rejects) w))
    = ["/auth"].
Proof.
  intros w.
  destruct (guard_at_startup "/chat" Rejects w) as (_ & _ & H & _);
    [reflexivity | reflexivity |].
  destruct H as [Hc Hp]; [discriminate |].
  exact (conj Hc Hp).
Defined.

(** X28. [send] never logs out.  After a 401 answer the user, the
    token in memory and [localStorage] are as before, so the guard, run
    on the ["/auth"] path the call pushed, still sees a user and pushes
    ["/"]: the router receives ["/auth"] and then ["/"]. *)
Theorem unauthorized_send_keeps_session (t_sent t_reply : Z)
    (b : option ChatBody) (h : Fetched (list WireMessage))
    (text tok : string) (u : User) (w : World) :
  input (chat w) = text →
  trim text ≠ "" →
  auth w = {| user := Some u; token := Some tok; loading := false |} →
  tok ≠ "" →
  let w1 := after (send t_sent t_reply (Responds 401 b) h) w in
  auth w1 = auth w
  ∧ localStorage w1 = localStorage w
  ∧ completion (ProtectedWrapper "/auth") w1 = Done Children
  ∧ pushed (after (ProtectedWrapper "/auth") w1)
    = (pushed w ++ ["/auth"; "/"])%list.
Proof.
  intros Hin Htxt Ha Htok. open_world w. injection Ha as -> -> ->. subst.
  send_enters Htxt Htok. change (401 =? 401) with true. js_run.
  unfold guard_redirect, guard_render. rewrite includes_publicPaths.
  rewrite (bool_decide_eq_true_2 ("/auth" = "/auth")) by done.
  rewrite !(bool_decide_eq_true_2 (is_Some (Some u))) by eauto.
  cbn [negb andb orb]. js_run. split_and!; try done.
  by rewrite <- app_assoc.
Qed.

Lemma unauthorized_send_keeps_session_witness :
  let w := after (setInput "hello" ;;; setToken (Some "T1")
                  ;;; setUser (Some alice) ;;; setLoading false)
             (initial_world 0 ∅) in
  let w1 := after (send 1 2 (Responds 401 None) Rejects) w in
  user (auth w1) = Some alice
  ∧ pushed (after (ProtectedWrapper "/auth") w1) = ["/auth"; "/"].
Proof.
  intros w w1.
  destruct (unauthorized_send_keeps_session 1 2 None Rejects "hello" "T1"
              alice w) as (Ha & _ & _ & Hp);
    [reflexivity | discriminate | reflexivity | discriminate |].
  fold w1 in Ha, Hp. split; [by rewrite Ha | exact Hp].
Defined.
